(** * Stereo WAV analysis tools: a shallow embedding and its properties

    The development follows [tools/analyze_wav.py] and
    [tools/quick_audio_analysis.py].  Both scripts carry the same
    [read_wav_stereo], [rms], [peak], [mean], [dbfs] and [noise_floor_db];
    [corr_at_lag], [best_lag] and [leakage_db] live in the first script,
    [analyze_clipping] in the second.

    Python's [float] is IEEE-754 binary64, which is what Rocq's primitive
    [float] is, so samples are primitive floats and every [+], [-], [*], [/]
    and [sqrt] below rounds the way the interpreter does.  Python's [int] is
    unbounded and becomes [Z].  Exceptions are explicit: a function that can
    raise returns a [result]. *)

From Stdlib Require Import ZArith List Bool Lia Floats Sorted Permutation.
From Stdlib.Strings Require Import Byte.
Import ListNotations.

Set Implicit Arguments.

(* ================================================================= *)
(** ** Exceptions and the error monad *)

Inductive exn : Set :=
| ValueError
| ZeroDivisionError
| OverflowError
| IndexError
| RuntimeError.

Inductive result (A : Type) : Type :=
| Ok (a : A)
| Raise (e : exn).

Arguments Ok {A} a.
Arguments Raise {A} e.

Definition bind {A B : Type} (c : result A) (k : A -> result B) : result B :=
  match c with
  | Ok a => k a
  | Raise e => Raise e
  end.

Notation "x <- c ;; k" := (bind c (fun x => k))
  (at level 61, c at next level, right associativity).
Notation "' pat <- c ;; k" := (bind c (fun x => match x with pat => k end))
  (at level 61, pat pattern, c at next level, right associativity).

(** A list comprehension / [for] loop whose body may raise: the first
    exception aborts the traversal. *)
Fixpoint mapM {A B : Type} (f : A -> result B) (l : list A) : result (list B) :=
  match l with
  | [] => Ok []
  | x :: r => y <- f x ;; ys <- mapM f r ;; Ok (y :: ys)
  end.

(** A [for] loop threading a state through a body that may raise. *)
Fixpoint foldM {A S : Type} (f : S -> A -> result S) (l : list A) (s : S) : result S :=
  match l with
  | [] => Ok s
  | x :: r => s' <- f s x ;; foldM f r s'
  end.

(* ================================================================= *)
(** ** Python numbers *)

Module Py.

(** [float(n)] for an integer [n]: the binary64 value nearest to [n],
    ties to even.  (CPython raises [OverflowError] from [2^1024] on; the
    integers converted here are list lengths, counts, a sample rate and
    millisecond values, so the conversion is kept total and yields
    [infinity] there.) *)
Definition float_of_int (n : Z) : float :=
  SF2Prim (binary_normalize prec emax n 0 false).

(** An integer as an exact, unrounded [spec_float]. *)
Definition int_SF (n : Z) : spec_float :=
  match n with
  | Z0 => S754_zero false
  | Zpos p => S754_finite false p 0
  | Zneg p => S754_finite true p 0
  end.

(** The binary64 value nearest to the exact quotient [a / b] of two
    integers, [b] not zero. *)
Definition int_quotient (a b : Z) : float :=
  SF2Prim (SFdiv prec emax (int_SF a) (int_SF b)).

(** [a / b] on two integers (true division): the correctly rounded
    quotient of the exact integers; a zero divisor raises. *)
Definition int_truediv (a b : Z) : result float :=
  if (b =? 0)%Z then Raise ZeroDivisionError else Ok (int_quotient a b).

(** [x / y] on floats: IEEE division, except that a zero divisor (of
    either sign) raises instead of producing an infinity or a NaN. *)
Definition truediv (x y : float) : result float :=
  if (y =? 0)%float then Raise ZeroDivisionError else Ok (x / y)%float.

(** [math.sqrt]: a negative argument (also [-inf]) is a domain error;
    [-0.0], NaN and [+inf] pass through. *)
Definition math_sqrt (x : float) : result float :=
  if (x <? 0)%float then Raise ValueError else Ok (sqrt x).

(** [int(x)] on a float: truncation toward zero; NaN and the infinities
    raise. *)
Definition int_of_float (x : float) : result Z :=
  match Prim2SF x with
  | S754_nan => Raise ValueError
  | S754_infinity _ => Raise OverflowError
  | S754_zero _ => Ok 0%Z
  | S754_finite s m e =>
      let mag := match e with
                 | Zneg k => Z.shiftr (Zpos m) (Zpos k)
                 | _ => Z.shiftl (Zpos m) e
                 end in
      Ok (if s then (- mag)%Z else mag)
  end.

(** [len(l)] *)
Definition len {A : Type} (l : list A) : Z := Z.of_nat (length l).

(** Index normalisation of a slice bound, as [PySlice_AdjustIndices]
    does for step 1: a negative bound counts from the end, and both are
    clamped to [0 .. len]. *)
Definition clamp (n i : Z) : Z :=
  if (i <? 0)%Z then Z.max 0 (i + n) else Z.min i n.

(** [l[lo:hi]]; a missing bound is [None]. *)
Definition slice {A : Type} (l : list A) (lo hi : option Z) : list A :=
  let n := len l in
  let s := match lo with Some i => clamp n i | None => 0%Z end in
  let e := match hi with Some j => clamp n j | None => n end in
  firstn (Z.to_nat (e - s)) (skipn (Z.to_nat s) l).

(** [l[i]]: a negative index counts from the end; out of range raises. *)
Definition index {A : Type} (l : list A) (i : Z) : result A :=
  let j := if (i <? 0)%Z then (i + len l)%Z else i in
  if (j <? 0)%Z then Raise IndexError
  else match nth_error l (Z.to_nat j) with
       | Some x => Ok x
       | None => Raise IndexError
       end.

(** [range(start, stop, step)] as the list it iterates over; a zero step
    raises.  The length is the one [range] computes. *)
Definition range (start stop step : Z) : result (list Z) :=
  if (step =? 0)%Z then Raise ValueError
  else
    let n := if (0 <? step)%Z
             then (if (start <? stop)%Z then (stop - start - 1) / step + 1 else 0)%Z
             else (if (stop <? start)%Z then (start - stop - 1) / (- step) + 1 else 0)%Z in
    Ok (map (fun k => (start + Z.of_nat k * step)%Z) (seq 0 (Z.to_nat n))).

(** [sum(l)] over floats: the built-in starts from the integer [0] and
    adds left to right. *)
Definition sum (l : list float) : float :=
  fold_left add l 0%float.

(** [max(iterable)] on a non-empty iterable: the first item, replaced by
    each later item that compares strictly greater. *)
Definition max_from (first : float) (l : list float) : float :=
  fold_left (fun m v => if (m <? v)%float then v else m) l first.

(** [list.sort()] on floats: ascending and stable, using only [<].
    (CPython's merge sort returns this very list whenever the floats are
    totally ordered by [<], that is when none of them is a NaN.) *)
Fixpoint insert (x : float) (l : list float) : list float :=
  match l with
  | [] => [x]
  | y :: r => if (y <? x)%float then y :: insert x r else x :: y :: r
  end.

Fixpoint sort (l : list float) : list float :=
  match l with
  | [] => []
  | x :: r => insert x (sort r)
  end.

End Py.

(* ================================================================= *)
(** ** ScalarStats: [rms], [peak], [mean], [dbfs] *)

(** [rms(arr)] *)
Definition rms (arr : list float) : result float :=
  match arr with
  | [] => Ok 0%float
  | _ =>
      let s := fold_left (fun s v => (s + v * v)%float) arr 0%float in
      q <- Py.truediv s (Py.float_of_int (Py.len arr)) ;;
      Py.math_sqrt q
  end.

(** [peak(arr)]: [max] with [default=0.0]. *)
Definition peak (arr : list float) : float :=
  match map abs arr with
  | [] => 0%float
  | x :: r => Py.max_from x r
  end.

(** [mean(arr)] *)
Definition mean (arr : list float) : result float :=
  match arr with
  | [] => Ok 0%float
  | _ => Py.truediv (Py.sum arr) (Py.float_of_int (Py.len arr))
  end.

Section MathLibrary.

(** [math.log10] where it does not raise.  Both call sites guard it with
    a test that excludes zero and negative arguments, so only its values
    on positive floats (and on NaN) are ever used; the function itself
    belongs to the C library and is a parameter here. *)
Variable log10 : float -> float.

(** [dbfs(x)] *)
Definition dbfs (x : float) : float :=
  if (x <=? 0)%float then (-999)%float else (20 * log10 x)%float.

(* --------------------------------------------------------------- *)
(** ** NoiseFloorEstimator: [noise_floor_db] *)

(** [win = max(1, int(sr*win_ms/1000))] *)
Definition window_length (sr win_ms : Z) : result Z :=
  q <- Py.int_truediv (sr * win_ms) 1000 ;;
  n <- Py.int_of_float q ;;
  Ok (Z.max 1 n).

(** The loop that fills [rms_list]: one RMS per window start
    [i in range(0, len(arr)-win, win)]. *)
Definition noise_floor_windows (arr : list float) (win : Z) : result (list float) :=
  starts <- Py.range 0 (Py.len arr - win) win ;;
  mapM (fun i => rms (Py.slice arr (Some i) (Some (i + win)%Z))) starts.

(** [noise_floor_db(arr, sr, win_ms, percentile)] *)
Definition noise_floor_db (arr : list float) (sr win_ms : Z) (percentile : float)
  : result float :=
  win <- window_length sr win_ms ;;
  if (Py.len arr <? win)%Z then
    r <- rms arr ;; Ok (dbfs r)
  else
    rms_list <- noise_floor_windows arr win ;;
    match rms_list with
    | [] => r <- rms arr ;; Ok (dbfs r)
    | _ =>
        let sorted := Py.sort rms_list in
        k <- Py.int_of_float (Py.float_of_int (Py.len sorted) * percentile)%float ;;
        let idx := Z.max 0 (k - 1) in
        v <- Py.index sorted idx ;;
        Ok (dbfs v)
    end.

End MathLibrary.

(* ================================================================= *)
(** ** SampleDecoder: [read_wav_stereo]

    [wave.open] and [readframes] are the container library; the function
    is modelled from the point where it holds the channel count [nch], the
    sample rate [sr], the sample width [sw] and the raw payload [frames]. *)

Definition byte_val (b : byte) : Z := Z.of_N (Byte.to_N b).

(** Two bytes as a signed 16-bit little-endian integer (array type ['h']
    on the payload [wave] hands out, which is little-endian on every
    host). *)
Definition s16le (b0 b1 : byte) : Z :=
  let u := (byte_val b0 + 256 * byte_val b1)%Z in
  if (u <? 32768)%Z then u else (u - 65536)%Z.

(** Four bytes as an unsigned little-endian word. *)
Definition u32le (b0 b1 b2 b3 : byte) : Z :=
  (byte_val b0 + 256 * byte_val b1 + 65536 * byte_val b2 + 16777216 * byte_val b3)%Z.

(** [struct] format ['<i']. *)
Definition s32le (b0 b1 b2 b3 : byte) : Z :=
  let u := u32le b0 b1 b2 b3 in
  if (u <? 2147483648)%Z then u else (u - 4294967296)%Z.

(** [struct] format ['<f']: the binary32 value of the word, widened to a
    Python float (exactly: every binary32 value is a binary64 value). *)
Definition f32_of_bits (u : Z) : float :=
  let sign := Z.testbit u 31 in
  let e := Z.land (Z.shiftr u 23) 255 in
  let m := Z.land u 8388607 in
  if (e =? 255)%Z then
    if (m =? 0)%Z then (if sign then neg_infinity else infinity) else nan
  else if (e =? 0)%Z then
    if (m =? 0)%Z then (if sign then neg_zero else zero)
    else SF2Prim (binary_normalize prec emax (if sign then - m else m) (-149) false)
  else
    let mant := (8388608 + m)%Z in
    SF2Prim (binary_normalize prec emax (if sign then - mant else mant) (e - 150) false).

Definition f32le (b0 b1 b2 b3 : byte) : float := f32_of_bits (u32le b0 b1 b2 b3).

(** Consecutive complete 2-byte items of a payload. *)
Fixpoint items16 (frames : list byte) : list Z :=
  match frames with
  | b0 :: b1 :: r => s16le b0 b1 :: items16 r
  | _ => []
  end.

(** Consecutive complete 4-byte items of a payload, read with [rd]. *)
Fixpoint items32 {A : Type} (rd : byte -> byte -> byte -> byte -> A)
    (frames : list byte) : list A :=
  match frames with
  | b0 :: b1 :: b2 :: b3 :: r => rd b0 b1 b2 b3 :: items32 rd r
  | _ => []
  end.

(** [a = array('h'); a.frombytes(frames)]: [frombytes] refuses a byte
    string whose length is not a multiple of the item size. *)
Definition array_h_frombytes (frames : list byte) : result (list Z) :=
  if (Py.len frames mod 2 =? 0)%Z then Ok (items16 frames) else Raise ValueError.

(** [struct.unpack('<' + c*count, frames[:count*4])], the buffer having
    been cut to [count] whole items by the slice. *)
Definition struct_unpack32 {A : Type} (rd : byte -> byte -> byte -> byte -> A)
    (count : Z) (frames : list byte) : list A :=
  items32 rd (Py.slice frames None (Some (count * 4)%Z)).

(** [[vals[i*2+off] for i in range(len(vals)//2)]] with the element
    post-processed by [f]. *)
Definition deinterleave {A B : Type} (f : A -> B) (vals : list A) (off : Z)
    : result (list B) :=
  idxs <- Py.range 0 (Py.len vals / 2) 1 ;;
  mapM (fun i => v <- Py.index vals (i * 2 + off) ;; Ok (f v)) idxs.

Definition read_wav_stereo (nch sr sw : Z) (frames : list byte)
    : result (Z * list float * list float) :=
  if negb (nch =? 2)%Z then Raise RuntimeError
  else if (sw =? 2)%Z then
    a <- array_h_frombytes frames ;;
    let norm := 32768%float in
    left <- deinterleave (fun v => (Py.float_of_int v / norm)%float) a 0 ;;
    right <- deinterleave (fun v => (Py.float_of_int v / norm)%float) a 1 ;;
    Ok (sr, left, right)
  else if (sw =? 4)%Z then
    let count := (Py.len frames / 4)%Z in
    let vals := struct_unpack32 f32le count frames in
    let maxabs := match map abs vals with
                  | [] => 0%float
                  | x :: r => Py.max_from x r
                  end in
    let vals :=
      if (10 <? maxabs)%float then
        let vals_i32 := struct_unpack32 s32le count frames in
        let norm := 2147483648%float in
        map (fun vi => (Py.float_of_int vi / norm)%float) vals_i32
      else vals in
    left <- deinterleave (fun v => v) vals 0 ;;
    right <- deinterleave (fun v => v) vals 1 ;;
    Ok (sr, left, right)
  else Raise RuntimeError.

(* ================================================================= *)
(** ** ClippingAnalyzer: [analyze_clipping] *)

(** A Python number that is either an [int] or a [float]. *)
Inductive number : Set :=
| Int (n : Z)
| Float (x : float).

Definition analyze_clipping (arr : list float) (threshold : float)
    : result (Z * number) :=
  let clipped_samples :=
    fold_left (fun s v => if (threshold <=? abs v)%float then (s + 1)%Z else s) arr 0%Z in
  match arr with
  | [] => Ok (clipped_samples, Int 0)
  | _ =>
      q <- Py.int_truediv clipped_samples (Py.len arr) ;;
      Ok (clipped_samples, Float (q * 100)%float)
  end.

(* ================================================================= *)
(** ** CrossChannelAnalyzer: [corr_at_lag], [best_lag], [leakage_db] *)

(** [not l] on a list. *)
Definition is_empty {A : Type} (l : list A) : bool :=
  match l with [] => true | _ => false end.

Definition truncate_same_len (a b : list float) : list float * list float :=
  let n := Z.min (Py.len a) (Py.len b) in
  (Py.slice a None (Some n), Py.slice b None (Some n)).

(** The two segments [a2], [b2] that [corr_at_lag] correlates. *)
Definition lag_segments (a b : list float) (lag : Z) : list float * list float :=
  if (lag =? 0)%Z then truncate_same_len a b
  else if (0 <? lag)%Z then
    let a2 := Py.slice a (Some lag) None in
    let b2 := Py.slice b None (Some (Py.len a2)) in
    (a2, b2)
  else
    let b2 := Py.slice b (Some (- lag)%Z) None in
    let a2 := Py.slice a None (Some (Py.len b2)) in
    (a2, b2).

(** The accumulation loop over [zip(a2, b2)]: [(num, da, db)]. *)
Definition corr_sums (ma mb : float) (a2 b2 : list float) : float * float * float :=
  fold_left
    (fun '(num, da, db) '(x, y) =>
       let dx := (x - ma)%float in
       let dy := (y - mb)%float in
       ((num + dx * dy)%float, (da + dx * dx)%float, (db + dy * dy)%float))
    (combine a2 b2) (0%float, 0%float, 0%float).

Definition corr_at_lag (a b : list float) (lag : Z) : result float :=
  let '(a2, b2) := lag_segments a b lag in
  if is_empty a2 || is_empty b2 then Ok 0%float
  else
    ma <- mean a2 ;;
    mb <- mean b2 ;;
    let '(num, da, db) := corr_sums ma mb a2 b2 in
    if (da <=? 0)%float || (db <=? 0)%float then Ok 0%float
    else
      d <- Py.math_sqrt (da * db)%float ;;
      Py.truediv num d.

(** [maxlag = int(sr * max_ms / 1000.0)] *)
Definition max_lag (sr max_ms : Z) : result Z :=
  Py.int_of_float (Py.float_of_int (sr * max_ms) / 1000)%float.

(** One iteration of the search loop on the state [(best, bestc)]. *)
Definition best_lag_step (a b : list float) (st : Z * float) (lag : Z)
    : result (Z * float) :=
  let '(best, bestc) := st in
  c <- corr_at_lag a b lag ;;
  Ok (if (bestc <? c)%float then (lag, c) else (best, bestc)).

Definition best_lag (a b : list float) (sr max_ms step : Z) : result (Z * float) :=
  maxlag <- max_lag sr max_ms ;;
  lags <- Py.range (- maxlag) (maxlag + 1) step ;;
  foldM (best_lag_step a b) lags (0%Z, (-2)%float).

Section Leakage.

Variable log10 : float -> float.

Definition leakage_db (target reference : list float)
    : result (option float * option float) :=
  let n := Z.min (Py.len target) (Py.len reference) in
  if (n =? 0)%Z then Ok (None, None)
  else
    idxs <- Py.range 0 n 1 ;;
    '(rr, rt) <- foldM (fun '(rr, rt) i =>
                          r <- Py.index reference i ;;
                          t <- Py.index target i ;;
                          Ok ((rr + r * r)%float, (rt + r * t)%float))
                       idxs (0%float, 0%float) ;;
    if (rr <=? 0)%float then Ok (Some 0%float, Some 0%float)
    else
      g <- Py.truediv rt rr ;;
      let db := if (0 <? abs g)%float then (20 * log10 (abs g))%float
                else (-999)%float in
      Ok (Some g, Some db).

End Leakage.

(* ================================================================= *)
(** ** Reference quantities used to state the properties *)

(** A 16-bit sample after normalisation: the signed little-endian value of
    its two bytes over 32768.0. *)
Definition norm16 (b0 b1 : byte) : float :=
  (Py.float_of_int (s16le b0 b1) / 32768)%float.

(** The reference energy and the cross term over the common prefix, each
    summed left to right from [0.0]. *)
Definition sum_rr (target reference : list float) : float :=
  fold_left (fun s '(r, t) => (s + r * r)%float) (combine reference target) 0%float.

Definition sum_rt (target reference : list float) : float :=
  fold_left (fun s '(r, t) => (s + r * t)%float) (combine reference target) 0%float.

(** The sum of squared deviations from [m]. *)
Definition sq_dev (m : float) (a : list float) : float :=
  fold_left (fun s x => (s + (x - m) * (x - m))%float) a 0%float.

(** The samples at or above the clipping threshold in magnitude. *)
Definition clipped (threshold : float) (arr : list float) : list float :=
  filter (fun v => (threshold <=? abs v)%float) arr.

(* ================================================================= *)
(** ** The remaining functions of the two scripts *)

(** [l[0::step]] for a step of at least 1: the items at the indices
    0, [step], [2*step], ...  [phase] counts the items still to skip
    before the next one that is kept. *)
Fixpoint take_every {A : Type} (step phase : nat) (l : list A) : list A :=
  match l with
  | [] => []
  | x :: r =>
      match phase with
      | O => x :: take_every step (step - 1) r
      | S k => take_every step k r
      end
  end.

(** [downsample(arr, step)] *)
Definition downsample (arr : list float) (step : Z) : list float :=
  if (step <=? 1)%Z then arr else take_every (Z.to_nat step) 0 arr.

Section DynamicRange.

Variable log10 : float -> float.

(** [analyze_dynamic_range(arr)] *)
Definition analyze_dynamic_range (arr : list float) : result float :=
  if is_empty arr then Ok 0%float
  else
    let peak_val := peak arr in
    rms_val <- rms arr ;;
    if (0 <? rms_val)%float then Ok (dbfs log10 peak_val - dbfs log10 rms_val)%float
    else Ok 0%float.

End DynamicRange.

(** The decimation step [main] of [analyze_wav.py] picks,
    [step = max(1, sr // 8000)], and the rate [sr // step] it hands to
    [best_lag]. *)
Definition analysis_step (sr : Z) : Z := Z.max 1 (sr / 8000).

Definition analysis_rate (sr : Z) : Z := (sr / analysis_step sr)%Z.

(** Window [k] of a buffer cut into windows of [win] samples:
    [arr[k*win : (k+1)*win]]. *)
Definition window (arr : list float) (win k : nat) : list float :=
  firstn win (skipn (k * win) arr).

(** The values of a 4-byte payload read as little-endian binary32 floats
    and as little-endian signed integers over 2^31. *)
Definition float_values (frames : list byte) : list float :=
  struct_unpack32 f32le (Py.len frames / 4) frames.

Definition int_values (frames : list byte) : list float :=
  map (fun vi => (Py.float_of_int vi / 2147483648)%float)
      (struct_unpack32 s32le (Py.len frames / 4) frames).

(** Channel [off] (0 left, 1 right) of an interleaved list of values. *)
Definition channel (vals : list float) (off : nat) : list float :=
  map (fun k => nth (2 * k + off) vals 0%float) (seq 0 (length vals / 2)).

Example rms_one : rms [1%float] = Ok 1%float.
Proof. vm_compute. reflexivity. Qed.

Example window_44100 : window_length 44100 50 = Ok 2205%Z.
Proof. vm_compute. reflexivity. Qed.

Example window_20 : window_length 20 50 = Ok 1%Z.
Proof. vm_compute. reflexivity. Qed.

Example windows_two : noise_floor_windows [1%float; 0%float] 1 = Ok [1%float].
Proof. vm_compute. reflexivity. Qed.

Example decode_one_frame :
  read_wav_stereo 2 44100 2 [x00; x40; x00; xc0]
  = Ok (44100%Z, [0.5%float], [(-0.5)%float]).
Proof. vm_compute. reflexivity. Qed.

Example max_lag_8000 : max_lag 8000 200 = Ok 1600%Z.
Proof. vm_compute. reflexivity. Qed.

Example corr_tiny :
  corr_at_lag [0x1p-300%float; (-0x1p-300)%float] [0x1p-300%float; (-0x1p-300)%float] 0
  = Raise ZeroDivisionError.
Proof. vm_compute. reflexivity. Qed.

Example corr_self :
  corr_at_lag [0.5%float; (-0.25)%float; 1%float] [0.5%float; (-0.25)%float; 1%float] 0
  = Ok 1%float.
Proof. vm_compute. reflexivity. Qed.

Example corr_nan :
  corr_at_lag [nan; 0.5%float] [nan; 0.5%float] 0 = Ok nan.
Proof. vm_compute. reflexivity. Qed.

Example clip_3_of_100 :
  analyze_clipping ([1%float; (-1)%float; 1%float] ++ repeat 0%float 97) 0x1.e666666666666p-1%float
  = Ok (3%Z, Float 3%float).
Proof. vm_compute. reflexivity. Qed.

Example best_lag_shift :
  best_lag [0%float; 1%float; 0%float; 0%float; 0%float]
           [0%float; 0%float; 1%float; 0%float; 0%float] 1000 2 1
  = Ok ((-1)%Z, 1%float).
Proof. vm_compute. reflexivity. Qed.

(* ================================================================= *)
(** * Properties *)

Unset Implicit Arguments.

(** ** Facts about binary64 arithmetic and comparison

    They are read off the specification of the primitive operations
    ([mul_spec], [ltb_spec], ...) on [spec_float]. *)

Module FloatFacts.

Local Open Scope float_scope.

Lemma mul_comm (x y : float) : x * y = y * x.
Proof.
  apply Prim2SF_inj. rewrite !mul_spec. unfold SF64mul.
  destruct (Prim2SF x) as [s | s | | s m e], (Prim2SF y) as [s' | s' | | s' m' e'];
    cbn; try reflexivity; rewrite (xorb_comm s s'); try reflexivity.
  now rewrite Pos.mul_comm, Z.add_comm.
Qed.

Lemma eqb_leb (x y : float) : (x =? y) = true -> (x <=? y) = true.
Proof.
  rewrite eqb_spec, leb_spec. unfold SFeqb, SFleb.
  destruct (SFcompare (Prim2SF x) (Prim2SF y)) as [[ | | ] | ]; auto.
Qed.

(** The order of non-NaN floats, read off a lexicographic key. *)
Definition key (x : spec_float) : Z * Z * Z :=
  match x with
  | S754_nan => (0, 0, 0)%Z
  | S754_zero _ => (0, 0, 0)%Z
  | S754_infinity s => ((if s then -2 else 2), 0, 0)%Z
  | S754_finite s m e => if s then (-1, - e, Zneg m)%Z else (1, e, Zpos m)%Z
  end.

Definition not_nan (x : spec_float) : Prop :=
  match x with S754_nan => False | _ => True end.

Definition lt3 (a b : Z * Z * Z) : Prop :=
  let '(a1, a2, a3) := a in
  let '(b1, b2, b3) := b in
  (a1 < b1 \/ (a1 = b1 /\ (a2 < b2 \/ (a2 = b2 /\ a3 < b3))))%Z.

Definition eq3 (a b : Z * Z * Z) : Prop :=
  let '(a1, a2, a3) := a in
  let '(b1, b2, b3) := b in
  (a1 = b1 /\ a2 = b2 /\ a3 = b3)%Z.

Lemma SFcompare_key (x y : spec_float) :
  not_nan x -> not_nan y ->
  match SFcompare x y with
  | Some Lt => lt3 (key x) (key y)
  | Some Eq => eq3 (key x) (key y)
  | Some Gt => lt3 (key y) (key x)
  | None => False
  end.
Proof.
  destruct x as [s | s | | s m e], y as [s' | s' | | s' m' e']; cbn; try tauto;
    intros _ _;
    try (destruct s; cbn; lia); try (destruct s'; cbn; lia);
    try (destruct s, s'; cbn; lia).
  change (Pos.compare_cont Eq m m') with (Pos.compare m m').
  destruct s, s'; cbn; try lia;
    destruct (Z.compare_spec e e'); cbn; try lia;
    destruct (Pos.compare_spec m m'); cbn; lia.
Qed.

Lemma SFltb_key (x y : spec_float) :
  SFltb x y = true <-> not_nan x /\ not_nan y /\ lt3 (key x) (key y).
Proof.
  unfold SFltb. split.
  - intros H.
    assert (Nx : not_nan x) by (destruct x; cbn in *; try discriminate; exact I).
    assert (Ny : not_nan y) by (destruct x, y; cbn in *; try discriminate; exact I).
    pose proof (SFcompare_key x y Nx Ny) as K.
    destruct (SFcompare x y) as [[ | | ] | ]; try discriminate. auto.
  - intros (Nx & Ny & L).
    pose proof (SFcompare_key x y Nx Ny) as K.
    destruct (key x) as [[? ?] ?], (key y) as [[? ?] ?]; unfold lt3, eq3 in *.
    destruct (SFcompare x y) as [[ | | ] | ]; try reflexivity; try lia; tauto.
Qed.

Lemma SFleb_key (x y : spec_float) :
  SFleb x y = true <->
  not_nan x /\ not_nan y /\ (lt3 (key x) (key y) \/ eq3 (key x) (key y)).
Proof.
  unfold SFleb. split.
  - intros H.
    assert (Nx : not_nan x) by (destruct x; cbn in *; try discriminate; exact I).
    assert (Ny : not_nan y) by (destruct x, y; cbn in *; try discriminate; exact I).
    pose proof (SFcompare_key x y Nx Ny) as K.
    destruct (SFcompare x y) as [[ | | ] | ]; try discriminate; auto.
  - intros (Nx & Ny & L).
    pose proof (SFcompare_key x y Nx Ny) as K.
    destruct (key x) as [[? ?] ?], (key y) as [[? ?] ?]; unfold lt3, eq3 in *.
    destruct (SFcompare x y) as [[ | | ] | ]; try reflexivity; try lia; tauto.
Qed.

Lemma ltb_irrefl (x : float) : (x <? x) = false.
Proof.
  destruct (x <? x) eqn:E; [ | reflexivity ].
  rewrite ltb_spec in E. apply SFltb_key in E. destruct E as (_ & _ & L).
  destruct (key (Prim2SF x)) as [[? ?] ?]; unfold lt3 in L; lia.
Qed.


Lemma ltb_leb_trans (x y z : float) :
  (x <? y) = true -> (y <=? z) = true -> (x <? z) = true.
Proof.
  rewrite !ltb_spec, leb_spec, !SFltb_key, SFleb_key.
  intros (Nx & Ny & L1) (_ & Nz & L2).
  repeat split; auto.
  destruct (key (Prim2SF x)) as [[? ?] ?], (key (Prim2SF y)) as [[? ?] ?],
           (key (Prim2SF z)) as [[? ?] ?]; unfold lt3, eq3 in *; lia.
Qed.

End FloatFacts.

(** ** Facts about the error monad *)

Lemma mapM_length {A B : Type} (f : A -> result B) (l : list A) (l' : list B) :
  mapM f l = Ok l' -> length l' = length l.
Proof.
  revert l'. induction l as [ | x r IH]; cbn; intros l' H.
  - injection H as <-. reflexivity.
  - destruct (f x) as [y | e]; cbn in H; [ | discriminate ].
    destruct (mapM f r) as [ys | e]; cbn in H; [ | discriminate ].
    injection H as <-. cbn. f_equal. now apply IH.
Qed.

Lemma mapM_ok {A B : Type} (f : A -> result B) (g : A -> B) (l : list A) :
  (forall x, In x l -> f x = Ok (g x)) -> mapM f l = Ok (map g l).
Proof.
  induction l as [ | x r IH]; cbn; intros H; [ reflexivity | ].
  rewrite (H x) by auto. cbn. rewrite IH by auto. reflexivity.
Qed.

(** ** Facts about [range] *)

Lemma range_pos_step (start stop step : Z) :
  (0 < step)%Z ->
  Py.range start stop step =
  Ok (map (fun k => (start + Z.of_nat k * step)%Z)
          (seq 0 (Z.to_nat (if (start <? stop)%Z
                            then (stop - start - 1) / step + 1 else 0)%Z))).
Proof.
  intros H. unfold Py.range.
  destruct (Z.eqb_spec step 0); [ lia | ].
  destruct (Z.ltb_spec 0 step); [ reflexivity | lia ].
Qed.

Lemma range_empty (start stop step : Z) :
  (0 < step)%Z -> (stop <= start)%Z -> Py.range start stop step = Ok [].
Proof.
  intros H1 H2. rewrite range_pos_step by assumption.
  destruct (Z.ltb_spec start stop); [ lia | reflexivity ].
Qed.

Lemma range_count (start stop step : Z) (l : list Z) :
  (0 < step)%Z -> (start < stop)%Z ->
  Py.range start stop step = Ok l ->
  Py.len l = ((stop - start - 1) / step + 1)%Z.
Proof.
  intros H1 H2. rewrite range_pos_step by assumption.
  destruct (Z.ltb_spec start stop); [ | lia ].
  intros E. injection E as <-. unfold Py.len.
  rewrite length_map, length_seq, Z2Nat.id; [ reflexivity | ].
  assert (0 <= (stop - start - 1) / step)%Z by (apply Z.div_pos; lia). lia.
Qed.

Lemma range_first (start stop step : Z) :
  (0 < step)%Z -> (start < stop)%Z ->
  exists r, Py.range start stop step = Ok (start :: r).
Proof.
  intros H1 H2. rewrite range_pos_step by assumption.
  destruct (Z.ltb_spec start stop); [ | lia ].
  assert (0 <= (stop - start - 1) / step)%Z by (apply Z.div_pos; lia).
  destruct (Z.to_nat ((stop - start - 1) / step + 1)) as [ | n] eqn:E; [ lia | ].
  cbn [seq map]. eexists. do 2 f_equal. lia.
Qed.

Lemma range_In (start stop step : Z) (l : list Z) (x : Z) :
  (0 < step)%Z ->
  Py.range start stop step = Ok l ->
  In x l <-> (start <= x < stop)%Z /\ ((x - start) mod step = 0)%Z.
Proof.
  intros H. rewrite range_pos_step by assumption. intros E. injection E as <-.
  rewrite in_map_iff. split.
  - intros (k & <- & Hk). apply in_seq in Hk.
    destruct (Z.ltb_spec start stop) as [Hlt | Hge]; [ | cbn in Hk; lia ].
    assert (0 <= (stop - start - 1) / step)%Z by (apply Z.div_pos; lia).
    assert (Z.of_nat k <= (stop - start - 1) / step)%Z by lia.
    assert (Z.of_nat k * step <= stop - start - 1)%Z.
    { transitivity (step * ((stop - start - 1) / step))%Z.
      - rewrite (Z.mul_comm step). apply Z.mul_le_mono_nonneg_r; lia.
      - apply Z.mul_div_le. lia. }
    split; [ nia | ].
    replace (start + Z.of_nat k * step - start)%Z with (Z.of_nat k * step)%Z by lia.
    apply Z.mod_mul. lia.
  - intros ((Hlo & Hhi) & Hmod).
    destruct (Z.ltb_spec start stop) as [Hlt | Hge]; [ | lia ].
    apply Z.div_exact in Hmod; [ | lia ].
    assert (0 <= (x - start) / step)%Z by (apply Z.div_pos; lia).
    assert ((x - start) / step <= (stop - start - 1) / step)%Z
      by (apply Z.div_le_mono; lia).
    exists (Z.to_nat ((x - start) / step)). split.
    + rewrite Z2Nat.id by assumption. lia.
    + apply in_seq. lia.
Qed.

(* ================================================================= *)
(** ** NoiseFloorEstimator *)

Lemma window_length_pos (sr win_ms win : Z) :
  window_length sr win_ms = Ok win -> (1 <= win)%Z.
Proof.
  unfold window_length.
  destruct (Py.int_truediv (sr * win_ms) 1000) as [q | e]; cbn; [ | discriminate ].
  destruct (Py.int_of_float q) as [n | e]; cbn; [ | discriminate ].
  intros [= <-]. lia.
Qed.

(** The loop visits the starts [0, win, 2*win, ...] strictly below
    [len(arr) - win]: that is [(len(arr) - 1) // win] windows. *)
Lemma noise_floor_windows_count (arr : list float) (win : Z) (l : list float) :
  (1 <= win)%Z -> (win <= Py.len arr)%Z ->
  noise_floor_windows arr win = Ok l ->
  Py.len l = ((Py.len arr - 1) / win)%Z.
Proof.
  intros Hw Hlen. unfold noise_floor_windows.
  destruct (Z.eq_dec (Py.len arr) win) as [E | NE].
  - rewrite range_empty by lia. cbn. intros [= <-].
    rewrite E. symmetry. apply Z.div_small. lia.
  - destruct (Py.range 0 (Py.len arr - win) win) as [starts | e] eqn:R;
      [ | rewrite range_pos_step in R by lia; discriminate ].
    cbn. intros M. apply mapM_length in M.
    apply range_count in R; [ | lia | lia ].
    unfold Py.len in *. rewrite M, R.
    replace (Z.of_nat (length arr) - 1)%Z
      with (Z.of_nat (length arr) - win - 0 - 1 + 1 * win)%Z by lia.
    rewrite Z.div_add by lia. reflexivity.
Qed.

(** Compared with the number of complete windows, [len(arr) // win]: one
    window is missing exactly when the length is a multiple of [win]. *)
Lemma noise_floor_windows_vs_complete (arr : list float) (win : Z) (l : list float) :
  (1 <= win)%Z -> (win <= Py.len arr)%Z ->
  noise_floor_windows arr win = Ok l ->
  Py.len l = (Py.len arr / win - (if (Py.len arr mod win =? 0) then 1 else 0))%Z.
Proof.
  intros Hw Hlen M. rewrite (noise_floor_windows_count arr win l Hw Hlen M).
  pose proof (Z.div_mod (Py.len arr) win ltac:(lia)) as D.
  pose proof (Z.mod_pos_bound (Py.len arr) win ltac:(lia)) as B.
  symmetry. destruct (Z.eqb_spec (Py.len arr mod win) 0) as [E | NE].
  - apply Z.div_unique with (r := (win - 1)%Z); lia.
  - apply Z.div_unique with (r := (Py.len arr mod win - 1)%Z); lia.
Qed.

Lemma noise_floor_windows_nil_iff (arr : list float) (win : Z) :
  (1 <= win)%Z -> (win <= Py.len arr)%Z ->
  noise_floor_windows arr win = Ok [] <-> Py.len arr = win.
Proof.
  intros Hw Hlen. split.
  - intros M. apply noise_floor_windows_count in M; try assumption.
    unfold Py.len in M at 1. cbn in M.
    destruct (Z.eq_dec (Py.len arr) win) as [E | NE]; [ assumption | exfalso ].
    assert (1 <= (Py.len arr - 1) / win)%Z; [ | lia ].
    apply Z.div_le_lower_bound; lia.
  - intros E. unfold noise_floor_windows. rewrite range_empty by lia. reflexivity.
Qed.

(** C1 (the code at the failing input).  With a one-sample window (20 Hz,
    50 ms) and the two-sample buffer [1.0, 0.0] there are two complete
    windows, yet the loop collects only the first: the estimate is
    [dbfs(1.0)] and the silent second window, which the quietest-percentile
    rule would select, is never looked at. *)
Theorem noise_floor_misses_last_complete_window :
  window_length 20 50 = Ok 1%Z /\
  (Py.len [1%float; 0%float] / 1 = 2)%Z /\
  noise_floor_windows [1%float; 0%float] 1 = Ok [1%float] /\
  forall log10,
    noise_floor_db log10 [1%float; 0%float] 20 50 0x1.999999999999ap-3%float
    = Ok (20 * log10 1)%float.
Proof.
  repeat split; try (vm_compute; reflexivity).
Qed.

(** C4 (counterexample).  Window of two samples (40 Hz, 50 ms), buffer of
    three: the length lies between [win] and [2*win], and one window is
    collected, not zero. *)
Lemma noise_floor_short_buffer_has_window :
  window_length 40 50 = Ok 2%Z /\
  (2 <= Py.len [0%float; 0%float; 1%float] < 2 * 2)%Z /\
  noise_floor_windows [0%float; 0%float; 1%float] 2 = Ok [0%float].
Proof.
  repeat split; try (vm_compute; reflexivity); vm_compute; discriminate.
Qed.

(** C4 (amended).  For a buffer of at least one window, no window is
    collected exactly when the length equals the window length, and the
    estimator then falls back to [dbfs(rms(arr))]. *)
Theorem noise_floor_zero_windows (arr : list float) (sr win_ms win : Z) :
  window_length sr win_ms = Ok win ->
  (win <= Py.len arr)%Z ->
  (noise_floor_windows arr win = Ok [] <-> Py.len arr = win) /\
  (Py.len arr = win ->
   forall log10 percentile,
     noise_floor_db log10 arr sr win_ms percentile
     = (r <- rms arr ;; Ok (dbfs log10 r))).
Proof.
  intros W Hlen. pose proof (window_length_pos _ _ _ W) as Hw. split.
  - now apply noise_floor_windows_nil_iff.
  - intros E log10 percentile. unfold noise_floor_db. rewrite W. cbn.
    destruct (Z.ltb_spec (Py.len arr) win); [ lia | ].
    apply (noise_floor_windows_nil_iff arr win Hw Hlen) in E. rewrite E. reflexivity.
Qed.

Lemma noise_floor_zero_windows_witness :
  (noise_floor_windows [0.5%float] 1 = Ok [] <-> Py.len [0.5%float] = 1%Z) /\
  (Py.len [0.5%float] = 1%Z ->
   forall log10 percentile,
     noise_floor_db log10 [0.5%float] 20 50 percentile
     = (r <- rms [0.5%float] ;; Ok (dbfs log10 r))).
Proof.
  apply (noise_floor_zero_windows [0.5%float] 20 50 1).
  - vm_compute. reflexivity.
  - vm_compute. discriminate.
Defined.

(* ================================================================= *)
(** ** SampleDecoder *)

Lemma index_nth {A : Type} (l : list A) (i : nat) (d : A) :
  i < length l -> Py.index l (Z.of_nat i) = Ok (nth i l d).
Proof.
  intros H. unfold Py.index.
  assert (E : (Z.of_nat i <? 0)%Z = false) by (apply Z.ltb_ge; lia).
  rewrite !E, Nat2Z.id, (nth_error_nth' l d H). reflexivity.
Qed.

Lemma range_upto (n : nat) :
  Py.range 0 (Z.of_nat n) 1 = Ok (map Z.of_nat (seq 0 n)).
Proof.
  rewrite range_pos_step by lia. f_equal.
  destruct (Z.ltb_spec 0 (Z.of_nat n)) as [H | H].
  - rewrite Z.div_1_r. replace (Z.of_nat n - 0 - 1 + 1)%Z with (Z.of_nat n) by lia.
    rewrite Nat2Z.id. apply map_ext. intros k. lia.
  - replace n with 0 by lia. reflexivity.
Qed.

Lemma len_half {A : Type} (l : list A) :
  (Py.len l / 2)%Z = Z.of_nat (length l / 2).
Proof. unfold Py.len. now rewrite Nat2Z.inj_div. Qed.

Lemma deinterleave_spec {A B : Type} (f : A -> B) (vals : list A) (off : nat) (d : A) :
  off < 2 ->
  deinterleave f vals (Z.of_nat off)
  = Ok (map (fun k => f (nth (2 * k + off) vals d)) (seq 0 (length vals / 2))).
Proof.
  intros Hoff. unfold deinterleave.
  rewrite len_half, range_upto. cbn [bind].
  rewrite mapM_ok with (g := fun i => f (nth (Z.to_nat (i * 2 + Z.of_nat off)) vals d)).
  - f_equal. rewrite map_map. apply map_ext. intros k. do 2 f_equal. lia.
  - intros i Hi. apply in_map_iff in Hi. destruct Hi as (k & <- & Hk).
    apply in_seq in Hk.
    pose proof (Nat.Div0.mul_div_le (length vals) 2).
    replace (Z.of_nat k * 2 + Z.of_nat off)%Z with (Z.of_nat (2 * k + off)) by lia.
    rewrite (index_nth vals (2 * k + off) d) by lia. cbn. now rewrite Nat2Z.id.
Qed.

Lemma deinterleave_left {A B : Type} (f : A -> B) (vals : list A) (d : A) :
  deinterleave f vals 0
  = Ok (map (fun k => f (nth (2 * k) vals d)) (seq 0 (length vals / 2))).
Proof.
  change 0%Z with (Z.of_nat 0). rewrite (deinterleave_spec f vals 0 d) by lia.
  f_equal. apply map_ext. intros k. now rewrite Nat.add_0_r.
Qed.

Lemma deinterleave_right {A B : Type} (f : A -> B) (vals : list A) (d : A) :
  deinterleave f vals 1
  = Ok (map (fun k => f (nth (2 * k + 1) vals d)) (seq 0 (length vals / 2))).
Proof.
  change 1%Z with (Z.of_nat 1). now rewrite (deinterleave_spec f vals 1 d) by lia.
Qed.

Lemma pair_ind {A : Type} (P : list A -> Prop) :
  P [] -> (forall x, P [x]) -> (forall x y r, P r -> P (x :: y :: r)) ->
  forall l, P l.
Proof.
  intros H0 H1 H2. fix IH 1.
  intros [ | x [ | y r]]; [ exact H0 | exact (H1 x) | exact (H2 x y r (IH r)) ].
Qed.

Lemma quad_ind {A : Type} (P : list A -> Prop) :
  P [] -> (forall x, P [x]) -> (forall x y, P [x; y]) -> (forall x y z, P [x; y; z]) ->
  (forall x y z w r, P r -> P (x :: y :: z :: w :: r)) ->
  forall l, P l.
Proof.
  intros H0 H1 H2 H3 H4. fix IH 1.
  intros [ | x [ | y [ | z [ | w r]]]];
    [ exact H0 | exact (H1 x) | exact (H2 x y) | exact (H3 x y z)
    | exact (H4 x y z w r (IH r)) ].
Qed.

Lemma items16_length (frames : list byte) :
  length (items16 frames) = length frames / 2.
Proof.
  induction frames as [ | x | x y r IH] using pair_ind; try reflexivity.
  cbn [items16 length]. rewrite IH.
  change (S (S (length r))) with (1 * 2 + length r).
  now rewrite Nat.div_add_l.
Qed.

Lemma items16_nth (frames : list byte) (k : nat) :
  k < length frames / 2 ->
  nth k (items16 frames) 0%Z
  = s16le (nth (2 * k) frames x00) (nth (2 * k + 1) frames x00).
Proof.
  revert k. induction frames as [ | x | x y r IH] using pair_ind; intros k Hk.
  - cbn in Hk. lia.
  - cbn in Hk. lia.
  - cbn [length] in Hk. change (S (S (length r))) with (1 * 2 + length r) in Hk.
    rewrite Nat.div_add_l in Hk by lia.
    destruct k as [ | k]; [ reflexivity | ].
    replace (2 * S k) with (S (S (2 * k))) by lia.
    replace (S (S (2 * k)) + 1) with (S (S (2 * k + 1))) by lia.
    cbn [items16 nth]. apply IH. lia.
Qed.

Lemma items32_length {A : Type} (rd : byte -> byte -> byte -> byte -> A)
    (frames : list byte) :
  length (items32 rd frames) = length frames / 4.
Proof.
  induction frames as [ | x | x y | x y z | x y z w r IH] using quad_ind;
    try reflexivity.
  cbn [items32 length]. rewrite IH.
  change (S (S (S (S (length r))))) with (1 * 4 + length r).
  now rewrite Nat.div_add_l.
Qed.

Lemma slice_prefix {A : Type} (l : list A) (n : Z) :
  (0 <= n)%Z -> Py.slice l None (Some n) = firstn (Z.to_nat n) l.
Proof.
  intros H. unfold Py.slice, Py.clamp, Py.len.
  destruct (Z.ltb_spec n 0); [ lia | ]. cbn [skipn Z.to_nat].
  rewrite Z.sub_0_r.
  destruct (Z.le_ge_cases n (Z.of_nat (length l))) as [Hle | Hge].
  - now rewrite Z.min_l.
  - rewrite Z.min_r, Nat2Z.id by assumption.
    rewrite firstn_all, firstn_all2 by lia. reflexivity.
Qed.

Lemma slice_suffix {A : Type} (l : list A) (i : Z) :
  (0 <= i)%Z -> Py.slice l (Some i) None = skipn (Z.to_nat i) l.
Proof.
  intros H. unfold Py.slice, Py.clamp, Py.len.
  destruct (Z.ltb_spec i 0); [ lia | ].
  destruct (Z.le_ge_cases i (Z.of_nat (length l))) as [Hle | Hge].
  - rewrite Z.min_l by assumption. apply firstn_all2.
    rewrite length_skipn. lia.
  - rewrite Z.min_r, Nat2Z.id by assumption. rewrite Z.sub_diag.
    rewrite skipn_all, skipn_all2 by lia. reflexivity.
Qed.

Lemma struct_unpack32_length {A : Type} (rd : byte -> byte -> byte -> byte -> A)
    (frames : list byte) :
  length (struct_unpack32 rd (Py.len frames / 4) frames) = length frames / 4.
Proof.
  unfold struct_unpack32, Py.len.
  rewrite <- (Nat2Z.inj_div _ 4). change 4%Z with (Z.of_nat 4).
  rewrite <- Nat2Z.inj_mul, slice_prefix, Nat2Z.id by lia.
  rewrite items32_length, length_firstn.
  pose proof (Nat.Div0.mul_div_le (length frames) 4).
  rewrite Nat.min_l by lia. apply Nat.div_mul. lia.
Qed.

(** The 4-byte path cuts the payload to whole items before unpacking and
    never raises. *)
Lemma read_wav_stereo_32bit_total (sr : Z) (frames : list byte) :
  exists left right,
    read_wav_stereo 2 sr 4 frames = Ok (sr, left, right) /\
    length left = length frames / 4 / 2 /\
    length right = length frames / 4 / 2.
Proof.
  unfold read_wav_stereo. cbn [Z.eqb negb Pos.eqb].
  set (vals := struct_unpack32 f32le (Py.len frames / 4) frames).
  set (ints := struct_unpack32 s32le (Py.len frames / 4) frames).
  set (maxabs := match map abs vals with [] => 0%float | x :: r => Py.max_from x r end).
  set (vals' := if (10 <? maxabs)%float then _ else vals).
  assert (L : length vals' = length frames / 4).
  { subst vals'. destruct (10 <? maxabs)%float.
    - rewrite length_map. apply struct_unpack32_length.
    - apply struct_unpack32_length. }
  rewrite (deinterleave_left (fun v => v) vals' 0%float).
  rewrite (deinterleave_right (fun v => v) vals' 0%float).
  cbn [bind]. do 2 eexists. split; [ reflexivity | ].
  rewrite !length_map, !length_seq, L. auto.
Qed.

Lemma read_wav_stereo_16bit_odd (sr : Z) (frames : list byte) :
  (Py.len frames mod 2 = 1)%Z ->
  read_wav_stereo 2 sr 2 frames = Raise ValueError.
Proof.
  intros H. unfold read_wav_stereo, array_h_frombytes. cbn [Z.eqb negb Pos.eqb].
  rewrite H. reflexivity.
Qed.

Lemma read_wav_stereo_16bit_even (sr : Z) (frames : list byte) :
  (Py.len frames mod 2 = 0)%Z ->
  read_wav_stereo 2 sr 2 frames =
  Ok (sr,
      map (fun k => norm16 (nth (4 * k) frames x00) (nth (4 * k + 1) frames x00))
          (seq 0 (length frames / 4)),
      map (fun k => norm16 (nth (4 * k + 2) frames x00) (nth (4 * k + 3) frames x00))
          (seq 0 (length frames / 4))).
Proof.
  intros H. unfold read_wav_stereo, array_h_frombytes. cbn [Z.eqb negb Pos.eqb].
  rewrite H. cbn [Z.eqb bind].
  rewrite (deinterleave_left _ (items16 frames) 0%Z).
  rewrite (deinterleave_right _ (items16 frames) 0%Z).
  cbn [bind]. rewrite items16_length, Nat.Div0.div_div. change (2 * 2) with 4.
  pose proof (Nat.Div0.mul_div_le (length frames) 4) as B.
  assert (B2 : forall k, k < length frames / 4 -> 2 * k + 1 < length frames / 2).
  { intros k Hk. apply Nat.div_le_lower_bound; lia. }
  f_equal. f_equal; [ f_equal | ].
  - apply map_ext_in. intros k Hk. apply in_seq in Hk.
    rewrite items16_nth by (specialize (B2 k); lia).
    replace (2 * (2 * k)) with (4 * k) by lia. reflexivity.
  - apply map_ext_in. intros k Hk. apply in_seq in Hk.
    rewrite items16_nth by (specialize (B2 k); lia).
    replace (2 * (2 * k + 1) + 1) with (4 * k + 3) by lia.
    replace (2 * (2 * k + 1)) with (4 * k + 2) by lia. reflexivity.
Qed.

(** C2 (the code at the failing input).  A payload of three bytes with
    2-byte samples holds one complete value and a stray byte.  The 2-byte
    path hands it to [array.frombytes] uncut, which refuses it, so decoding
    raises; the 4-byte path cuts its payload to whole items first and
    decodes nine bytes (two values and a stray byte) to one frame. *)
Theorem read_wav_stereo_stray_byte_raises :
  read_wav_stereo 2 44100 2 [x00; x40; x00] = Raise ValueError /\
  read_wav_stereo 2 44100 4 [x00; x00; x00; x3f; x00; x00; x00; xbf; x01]
  = Ok (44100%Z, [0.5%float], [(-0.5)%float]).
Proof.
  split; vm_compute; reflexivity.
Qed.

(** C8 (the code on every 2-byte payload).  With 2-byte samples and a
    payload of whole samples, frame [k] of the left channel is the signed
    little-endian value of bytes [4k], [4k+1] over 32768.0 and frame [k]
    of the right channel that of bytes [4k+2], [4k+3]; there are
    [len(frames) // 4] frames.  A payload with a stray byte is not decoded
    at all: [array.frombytes] refuses it.  The payload of the samples
    16384, -16384 decodes to exactly [0.5] and [-0.5]; the same payload
    followed by one more byte raises. *)
Theorem read_wav_stereo_16bit :
  (forall (sr : Z) (frames : list byte),
     read_wav_stereo 2 sr 2 frames =
     if (Py.len frames mod 2 =? 0)%Z
     then Ok (sr,
              map (fun k => norm16 (nth (4 * k) frames x00) (nth (4 * k + 1) frames x00))
                  (seq 0 (length frames / 4)),
              map (fun k => norm16 (nth (4 * k + 2) frames x00) (nth (4 * k + 3) frames x00))
                  (seq 0 (length frames / 4)))
     else Raise ValueError) /\
  s16le x00 x40 = 16384%Z /\ s16le x00 xc0 = (-16384)%Z /\
  read_wav_stereo 2 44100 2 [x00; x40; x00; xc0]
  = Ok (44100%Z, [0.5%float], [(-0.5)%float]) /\
  read_wav_stereo 2 44100 2 [x00; x40; x00; xc0; x00] = Raise ValueError.
Proof.
  split.
  - intros sr frames. destruct (Py.len frames mod 2 =? 0)%Z eqn:E.
    + apply read_wav_stereo_16bit_even. now apply Z.eqb_eq.
    + apply read_wav_stereo_16bit_odd. apply Z.eqb_neq in E.
      pose proof (Z.mod_pos_bound (Py.len frames) 2 ltac:(lia)). lia.
  - repeat split; vm_compute; reflexivity.
Qed.

(* ================================================================= *)
(** ** CrossChannelAnalyzer: the leakage gain *)

Lemma skipn_nth_cons {A : Type} (l : list A) (k : nat) (d : A) :
  k < length l -> skipn k l = nth k l d :: skipn (S k) l.
Proof.
  revert k. induction l as [ | x r IH]; intros k H; cbn in H; [ lia | ].
  destruct k as [ | k]; [ reflexivity | ].
  cbn [skipn nth]. apply IH. lia.
Qed.

Lemma leakage_loop (target reference : list float) (m k : nat) (st : float * float) :
  k + m = Nat.min (length target) (length reference) ->
  foldM (fun '(rr, rt) i =>
           r <- Py.index reference i ;;
           t <- Py.index target i ;;
           Ok ((rr + r * r)%float, (rt + r * t)%float))
        (map Z.of_nat (seq k m)) st
  = Ok (fold_left (fun '(rr, rt) '(r, t) => ((rr + r * r)%float, (rt + r * t)%float))
                  (combine (skipn k reference) (skipn k target)) st).
Proof.
  revert k st. induction m as [ | m IH]; intros k st H.
  - cbn. replace (combine (skipn k reference) (skipn k target)) with (@nil (float * float));
      [ reflexivity | ].
    symmetry. apply length_zero_iff_nil.
    rewrite length_combine, !length_skipn. lia.
  - cbn [seq map foldM]. destruct st as [rr rt].
    rewrite (index_nth reference k 0%float), (index_nth target k 0%float) by lia.
    cbn [bind]. rewrite IH by lia.
    rewrite (skipn_nth_cons reference k 0%float), (skipn_nth_cons target k 0%float) by lia.
    reflexivity.
Qed.

Lemma fold_left_agree {A S : Type} (f g : S -> A -> S) (l : list A) (s : S) :
  (forall s a, f s a = g s a) -> fold_left f l s = fold_left g l s.
Proof.
  intros H. revert s. induction l as [ | a r IH]; intros s; [ reflexivity | ].
  cbn. rewrite H. apply IH.
Qed.

Lemma fold_left_pair {A : Type} (f g : float -> A -> float) (l : list A) (x y : float) :
  fold_left (fun '(u, v) a => (f u a, g v a)) l (x, y)
  = (fold_left f l x, fold_left g l y).
Proof.
  revert x y. induction l as [ | a r IH]; intros x y; [ reflexivity | ].
  cbn. apply IH.
Qed.

Lemma leakage_sums (target reference : list float) :
  foldM (fun '(rr, rt) i =>
           r <- Py.index reference i ;;
           t <- Py.index target i ;;
           Ok ((rr + r * r)%float, (rt + r * t)%float))
        (map Z.of_nat (seq 0 (Nat.min (length target) (length reference))))
        (0%float, 0%float)
  = Ok (sum_rr target reference, sum_rt target reference).
Proof.
  rewrite leakage_loop by lia. cbn [skipn]. f_equal.
  unfold sum_rr, sum_rt.
  rewrite <- (fold_left_pair (fun s '(r, t) => (s + r * r)%float)
                             (fun s '(r, t) => (s + r * t)%float)).
  apply fold_left_agree. intros [u v] [r t]. reflexivity.
Qed.

Lemma min_len_zero (target reference : list float) :
  (Z.min (Py.len target) (Py.len reference) =? 0)%Z
  = is_empty target || is_empty reference.
Proof.
  destruct target, reference; cbn; try reflexivity.
  unfold Py.len. cbn [length]. apply Z.eqb_neq. lia.
Qed.

Lemma truediv_guarded (x y : float) :
  (y <=? 0)%float = false -> Py.truediv x y = Ok (x / y)%float.
Proof.
  intros H. unfold Py.truediv.
  destruct (y =? 0)%float eqn:E; [ | reflexivity ].
  apply FloatFacts.eqb_leb in E. congruence.
Qed.

Section LeakageProperties.

Variable log10 : float -> float.

(** C3 (amended).  [leakage_db] never raises.  It returns
    [(None, None)] exactly when at least one input is empty (the common
    prefix has length 0); [(0.0, 0.0)] when the reference energy over the
    common prefix is [<= 0]; and otherwise [(g, d)] with [g] the cross term
    over the reference energy and [d = 20*log10(abs(g))] when [abs(g) > 0],
    the sentinel -999.0 when [g] is zero or NaN. *)
Theorem leakage_db_cases (target reference : list float) :
  leakage_db log10 target reference =
  Ok (if is_empty target || is_empty reference then (None, None)
      else if (sum_rr target reference <=? 0)%float then (Some 0%float, Some 0%float)
      else
        let g := (sum_rt target reference / sum_rr target reference)%float in
        (Some g,
         Some (if (0 <? abs g)%float then (20 * log10 (abs g))%float else (-999)%float)))
  /\
  (leakage_db log10 target reference = Ok (None, None)
   <-> target = [] \/ reference = []).
Proof.
  assert (E : leakage_db log10 target reference =
    Ok (if is_empty target || is_empty reference then (None, None)
      else if (sum_rr target reference <=? 0)%float then (Some 0%float, Some 0%float)
      else
        let g := (sum_rt target reference / sum_rr target reference)%float in
        (Some g,
         Some (if (0 <? abs g)%float then (20 * log10 (abs g))%float else (-999)%float)))).
  { unfold leakage_db.
    destruct (Z.min (Py.len target) (Py.len reference) =? 0)%Z eqn:N;
      rewrite min_len_zero in N; rewrite N; [ reflexivity | ].
    unfold Py.len. rewrite <- Nat2Z.inj_min, range_upto. cbn [bind].
    rewrite leakage_sums. cbn [bind].
    destruct (sum_rr target reference <=? 0)%float eqn:Z; [ reflexivity | ].
    rewrite (truediv_guarded _ _ Z). reflexivity. }
  split; [ exact E | ].
  rewrite E. split.
  - destruct target as [ | t target], reference as [ | r reference]; auto.
    cbn [is_empty orb].
    destruct (sum_rr (t :: target) (r :: reference) <=? 0)%float; discriminate.
  - intros [-> | ->]; [ reflexivity | ]. destruct target; reflexivity.
Qed.

End LeakageProperties.

(** C3 (counterexample).  A non-empty target with an empty reference also
    gives [(None, None)]: the two inputs need not both be empty. *)
Lemma leakage_db_one_empty :
  is_empty [1%float] = false /\
  forall log10, leakage_db log10 [1%float] [] = Ok (None, None).
Proof. split; [ reflexivity | intros; reflexivity ]. Qed.

(* ================================================================= *)
(** ** CrossChannelAnalyzer: correlation at a lag *)

Lemma mean_raises (l : list float) (e : exn) :
  mean l = Raise e -> e = ZeroDivisionError.
Proof.
  unfold mean, Py.truediv. destruct l; [ discriminate | ].
  destruct (_ =? 0)%float; congruence.
Qed.

Lemma lag_segments_swap (a b : list float) (lag : Z) :
  lag_segments b a (- lag) = (snd (lag_segments a b lag), fst (lag_segments a b lag)).
Proof.
  unfold lag_segments, truncate_same_len.
  destruct (Z.eqb_spec lag 0) as [-> | NZ].
  - cbn [Z.opp Z.eqb fst snd]. now rewrite Z.min_comm.
  - destruct (Z.eqb_spec (- lag) 0); [ lia | ].
    destruct (Z.ltb_spec 0 lag), (Z.ltb_spec 0 (- lag)); try lia; cbn [fst snd].
    + now rewrite Z.opp_involutive.
    + reflexivity.
Qed.

Lemma corr_sums_swap_acc (ma mb : float) (a2 b2 : list float) (num da db : float) :
  fold_left
    (fun '(num, da, db) '(x, y) =>
       let dx := (x - mb)%float in
       let dy := (y - ma)%float in
       ((num + dx * dy)%float, (da + dx * dx)%float, (db + dy * dy)%float))
    (combine b2 a2) (num, db, da)
  = let '(n, d1, d2) :=
      fold_left
        (fun '(num, da, db) '(x, y) =>
           let dx := (x - ma)%float in
           let dy := (y - mb)%float in
           ((num + dx * dy)%float, (da + dx * dx)%float, (db + dy * dy)%float))
        (combine a2 b2) (num, da, db) in
    (n, d2, d1).
Proof.
  revert b2 num da db. induction a2 as [ | x a2 IH]; intros [ | y b2] num da db;
    try reflexivity.
  cbn [combine fold_left]. rewrite (FloatFacts.mul_comm (y - mb) (x - ma)). apply IH.
Qed.

Lemma corr_sums_swap (ma mb : float) (a2 b2 : list float) :
  corr_sums mb ma b2 a2
  = let '(n, d1, d2) := corr_sums ma mb a2 b2 in (n, d2, d1).
Proof. apply corr_sums_swap_acc. Qed.

(** C6.  Swapping the buffers and negating the lag leaves the result
    unchanged: the two calls correlate the same pair of segments, and every
    float operation involved is symmetric in them.  The equality is exact,
    exceptions included. *)
Theorem corr_at_lag_swap (a b : list float) (lag : Z) :
  corr_at_lag a b lag = corr_at_lag b a (- lag).
Proof.
  unfold corr_at_lag. rewrite lag_segments_swap.
  destruct (lag_segments a b lag) as [a2 b2]. cbn [fst snd].
  rewrite (orb_comm (is_empty b2)).
  destruct (is_empty a2 || is_empty b2); [ reflexivity | ].
  destruct (mean a2) as [ma | ea] eqn:Ma, (mean b2) as [mb | eb] eqn:Mb; cbn [bind];
    try reflexivity.
  - rewrite (corr_sums_swap ma mb a2 b2).
    destruct (corr_sums ma mb a2 b2) as [[num da] db]. cbv beta iota.
    rewrite (orb_comm (db <=? 0)%float), (FloatFacts.mul_comm db da). reflexivity.
  - apply mean_raises in Ma, Mb. congruence.
Qed.

Lemma corr_sums_self_acc (m : float) (a : list float) (s : float) :
  fold_left
    (fun '(num, da, db) '(x, y) =>
       let dx := (x - m)%float in
       let dy := (y - m)%float in
       ((num + dx * dy)%float, (da + dx * dx)%float, (db + dy * dy)%float))
    (combine a a) (s, s, s)
  = let t := fold_left (fun s x => (s + (x - m) * (x - m))%float) a s in (t, t, t).
Proof.
  revert s. induction a as [ | x a IH]; intros s; [ reflexivity | ].
  cbn [combine fold_left]. apply IH.
Qed.

Lemma lag_segments_self (a : list float) : lag_segments a a 0 = (a, a).
Proof.
  unfold lag_segments, truncate_same_len. cbn [Z.eqb].
  rewrite Z.min_id, slice_prefix by (unfold Py.len; lia).
  unfold Py.len. rewrite Nat2Z.id, firstn_all. reflexivity.
Qed.

(** Self-correlation at lag 0 comes down to [s / sqrt(s*s)] for the sum
    [s] of squared deviations. *)
Lemma corr_at_lag_self (a : list float) :
  corr_at_lag a a 0 =
  if is_empty a then Ok 0%float
  else
    m <- mean a ;;
    let s := sq_dev m a in
    if (s <=? 0)%float then Ok 0%float
    else d <- Py.math_sqrt (s * s)%float ;; Py.truediv s d.
Proof.
  unfold corr_at_lag. rewrite lag_segments_self, orb_diag.
  destruct (is_empty a); [ reflexivity | ].
  destruct (mean a) as [m | e]; cbn [bind]; [ | reflexivity ].
  unfold corr_sums, sq_dev. rewrite corr_sums_self_acc. cbv beta iota zeta.
  now rewrite orb_diag.
Qed.

(** C7 (the code at the failing input).  The buffer [2^-300, -2^-300] is
    not constant; its mean is 0 and the sum of squared deviations is
    [2^-599 > 0], so the zero-variance guard lets it through; the product
    [da*db = 2^-1198] underflows to 0.0 and the final division raises.  An
    everyday buffer gives exactly 1.0. *)
Theorem corr_at_lag_self_underflow :
  mean [0x1p-300%float; (-0x1p-300)%float] = Ok 0%float /\
  sq_dev 0 [0x1p-300%float; (-0x1p-300)%float] = 0x1p-599%float /\
  (0x1p-599 <=? 0)%float = false /\
  (0x1p-599 * 0x1p-599)%float = 0%float /\
  corr_at_lag [0x1p-300%float; (-0x1p-300)%float]
              [0x1p-300%float; (-0x1p-300)%float] 0
  = Raise ZeroDivisionError /\
  corr_at_lag [0.5%float; (-0.25)%float; 1%float]
              [0.5%float; (-0.25)%float; 1%float] 0
  = Ok 1%float.
Proof.
  repeat split; vm_compute; reflexivity.
Qed.

(* ================================================================= *)
(** ** CrossChannelAnalyzer: the lag search *)

Section LagSearch.

Variables a b : list float.


(** When every value is the degenerate 0.0 the loop keeps the first
    state it moved to. *)
Lemma scan_all_zero (lags : list Z) (best : Z) :
  (forall lag, In lag lags -> corr_at_lag a b lag = Ok 0%float) ->
  foldM (best_lag_step a b) lags (best, 0%float) = Ok (best, 0%float).
Proof.
  induction lags as [ | l rest IH]; intros H; [ reflexivity | ].
  cbn [foldM]. unfold best_lag_step at 1. rewrite (H l) by (left; reflexivity).
  cbn [bind]. change (0 <? 0)%float with false. cbv iota. apply IH.
  intros lag Hl. apply H. now right.
Qed.

(** C10.  If the correlation is the degenerate 0.0 at every scanned lag,
    the search returns the first lag scanned, [-maxlag], with 0.0: the
    first value beats the initial -2.0 and no later one beats it. *)
Theorem best_lag_all_degenerate (sr max_ms step maxlag : Z) :
  max_lag sr max_ms = Ok maxlag ->
  (0 <= maxlag)%Z ->
  (0 < step)%Z ->
  (forall lag, (- maxlag <= lag <= maxlag)%Z -> ((lag + maxlag) mod step = 0)%Z ->
               corr_at_lag a b lag = Ok 0%float) ->
  best_lag a b sr max_ms step = Ok ((- maxlag)%Z, 0%float).
Proof.
  intros Hm Hpos Hstep Hz. unfold best_lag. rewrite Hm. cbn [bind].
  destruct (range_first (- maxlag) (maxlag + 1) step Hstep ltac:(lia)) as (rest & R).
  assert (Hin : forall lag, In lag (- maxlag :: rest)%Z -> corr_at_lag a b lag = Ok 0%float).
  { intros lag H. apply (range_In _ _ _ _ lag Hstep R) in H. destruct H as [H1 H2].
    apply Hz; [ lia | ]. replace (lag + maxlag)%Z with (lag - - maxlag)%Z by lia. exact H2. }
  rewrite R. cbn [bind foldM]. unfold best_lag_step at 1.
  rewrite (Hin (- maxlag)%Z) by (left; reflexivity). cbn [bind].
  change ((-2) <? 0)%float with true. cbv iota.
  apply scan_all_zero. intros lag H. apply Hin. now right.
Qed.

End LagSearch.

Lemma corr_at_lag_nil (lag : Z) : corr_at_lag [] [] lag = Ok 0%float.
Proof.
  unfold corr_at_lag, lag_segments, truncate_same_len, Py.slice.
  destruct (lag =? 0)%Z, (0 <? lag)%Z; rewrite ?skipn_nil, ?firstn_nil; reflexivity.
Qed.

(** A constant buffer against any other: every lag is degenerate. *)
Lemma best_lag_all_degenerate_witness :
  best_lag [1%float; 1%float; 1%float] [0%float; 1%float; 0%float] 1000 2 1
  = Ok ((- 2)%Z, 0%float).
Proof.
  apply (best_lag_all_degenerate
           [1%float; 1%float; 1%float] [0%float; 1%float; 0%float] 1000 2 1 2).
  - vm_compute. reflexivity.
  - lia.
  - lia.
  - intros lag H _.
    assert (C : lag = (-2)%Z \/ lag = (-1)%Z \/ lag = 0%Z \/ lag = 1%Z \/ lag = 2%Z) by lia.
    destruct C as [-> | [-> | [-> | [-> | ->]]]]; vm_compute; reflexivity.
Defined.

(* ================================================================= *)
(** ** ClippingAnalyzer *)

Lemma clipping_count (threshold : float) (arr : list float) (acc : Z) :
  fold_left (fun s v => if (threshold <=? abs v)%float then (s + 1)%Z else s) arr acc
  = (acc + Py.len (clipped threshold arr))%Z.
Proof.
  revert acc. unfold Py.len, clipped.
  induction arr as [ | v r IH]; intros acc; cbn [fold_left filter length].
  - lia.
  - rewrite IH. destruct (threshold <=? abs v)%float; cbn [length]; lia.
Qed.

(** C9.  [analyze_clipping] never raises; it returns the number of samples
    with [abs(v) >= threshold] and, for a non-empty buffer, the float
    [(count / len) * 100] (the integer 0 for an empty one).  With 100
    samples of which exactly 3 reach the threshold the result is
    [(3, 3.0)]. *)
Theorem analyze_clipping_spec :
  (forall (arr : list float) (threshold : float),
     analyze_clipping arr threshold =
     Ok (Py.len (clipped threshold arr),
         if is_empty arr then Int 0
         else Float (Py.int_quotient (Py.len (clipped threshold arr)) (Py.len arr) * 100)%float))
  /\
  (forall (arr : list float) (threshold : float),
     length arr = 100 ->
     length (clipped threshold arr) = 3 ->
     analyze_clipping arr threshold = Ok (3%Z, Float 3%float)).
Proof.
  assert (G : forall arr threshold,
     analyze_clipping arr threshold =
     Ok (Py.len (clipped threshold arr),
         if is_empty arr then Int 0
         else Float (Py.int_quotient (Py.len (clipped threshold arr)) (Py.len arr) * 100)%float)).
  { intros arr threshold. unfold analyze_clipping. rewrite clipping_count, Z.add_0_l.
    destruct arr as [ | v r]; [ reflexivity | ].
    unfold Py.int_truediv.
    destruct (Z.eqb_spec (Py.len (v :: r)) 0) as [E | _]; [ | reflexivity ].
    unfold Py.len in E. cbn [length] in E. lia. }
  split; [ exact G | ].
  intros arr threshold H100 H3. rewrite G. unfold Py.len. rewrite H100, H3.
  destruct arr; [ discriminate | ]. cbn [is_empty].
  vm_compute. reflexivity.
Qed.

Lemma analyze_clipping_witness :
  analyze_clipping ([1%float; (-1)%float; 1%float] ++ repeat 0.5%float 97)
                   0x1.e666666666666p-1%float
  = Ok (3%Z, Float 3%float).
Proof.
  apply (proj2 analyze_clipping_spec); vm_compute; reflexivity.
Defined.

(* ================================================================= *)
(** * Further properties of the two scripts *)

(** ** More facts about binary64 arithmetic *)

Module FloatShape.

Local Open Scope float_scope.

(** A value that does not compare below zero: NaN, a zero of either sign,
    or a positive number. *)
Definition not_neg (x : spec_float) : bool :=
  match x with
  | S754_infinity true | S754_finite true _ _ => false
  | _ => true
  end.

(** A positive number, finite or infinite. *)
Definition positive_sf (x : spec_float) : bool :=
  match x with
  | S754_infinity false | S754_finite false _ _ => true
  | _ => false
  end.

Lemma Prim2SF_zero : Prim2SF 0 = S754_zero false.
Proof. vm_compute. reflexivity. Qed.

Lemma ltb_zero (x : float) : (x <? 0) = negb (not_neg (Prim2SF x)).
Proof.
  rewrite ltb_spec, Prim2SF_zero.
  destruct (Prim2SF x) as [s | s | | s m e]; try destruct s; reflexivity.
Qed.

Lemma leb_zero_false (x : float) :
  (x <=? 0) = false ->
  Prim2SF x = S754_nan \/ positive_sf (Prim2SF x) = true.
Proof.
  rewrite leb_spec, Prim2SF_zero.
  destruct (Prim2SF x) as [s | s | | s m e]; try destruct s; cbn; auto; discriminate.
Qed.

Lemma eqb_zero_positive (x : float) :
  positive_sf (Prim2SF x) = true -> (x =? 0) = false.
Proof.
  rewrite eqb_spec, Prim2SF_zero.
  destruct (Prim2SF x) as [s | s | | s m e]; try destruct s; cbn; auto; discriminate.
Qed.

Lemma binary_round_aux_shape (s : bool) (m e : Z) (l : location) :
  match binary_round_aux prec emax s m e l with
  | S754_zero s' | S754_infinity s' | S754_finite s' _ _ => s' = s
  | S754_nan => True
  end.
Proof.
  unfold binary_round_aux.
  destruct (shr_fexp prec emax m e l) as [mrs' e'].
  destruct (shr_fexp prec emax _ e' loc_Exact) as [mrs'' e''].
  destruct (shr_m mrs''); auto.
  destruct (e'' <=? emax - prec)%Z; reflexivity.
Qed.

Lemma binary_round_aux_not_neg (m e : Z) (l : location) :
  not_neg (binary_round_aux prec emax false m e l) = true.
Proof.
  pose proof (binary_round_aux_shape false m e l) as H.
  destruct (binary_round_aux prec emax false m e l); cbn; subst; reflexivity.
Qed.

Lemma binary_normalize_not_neg (m e : Z) :
  (0 <= m)%Z -> not_neg (binary_normalize prec emax m e false) = true.
Proof.
  intros H. destruct m as [ | p | p]; [ reflexivity | | lia ].
  cbn [binary_normalize]. unfold binary_round.
  destruct (shl_align p e _) as [mz ez]. apply binary_round_aux_not_neg.
Qed.

Lemma mul_self_not_neg (x : float) : not_neg (Prim2SF (x * x)) = true.
Proof.
  rewrite mul_spec. unfold SF64mul.
  destruct (Prim2SF x) as [s | s | | s m e]; cbn [SFmul]; rewrite ?xorb_nilpotent;
    try reflexivity.
  apply binary_round_aux_not_neg.
Qed.

Lemma add_not_neg (x y : float) :
  not_neg (Prim2SF x) = true -> not_neg (Prim2SF y) = true ->
  not_neg (Prim2SF (x + y)) = true.
Proof.
  rewrite add_spec. unfold SF64add.
  destruct (Prim2SF x) as [s | s | | s m e], (Prim2SF y) as [s' | s' | | s' m' e'];
    try destruct s; try destruct s'; cbn [SFadd not_neg]; intros; try reflexivity;
    try discriminate.
  apply binary_normalize_not_neg. cbn [cond_Zopp]. lia.
Qed.

Lemma div_not_neg (x y : float) :
  not_neg (Prim2SF x) = true -> positive_sf (Prim2SF y) = true ->
  not_neg (Prim2SF (x / y)) = true.
Proof.
  rewrite div_spec. unfold SF64div.
  destruct (Prim2SF x) as [s | s | | s m e], (Prim2SF y) as [s' | s' | | s' m' e'];
    try destruct s; try destruct s'; cbn [SFdiv not_neg positive_sf xorb]; intros;
    try reflexivity; try discriminate.
  destruct (SFdiv_core_binary prec emax (Zpos m) e (Zpos m') e') as [[mz ez] lz].
  apply binary_round_aux_not_neg.
Qed.

Lemma sqrt_not_neg (x : float) :
  not_neg (Prim2SF x) = true -> not_neg (Prim2SF (sqrt x)) = true.
Proof.
  rewrite sqrt_spec. unfold SF64sqrt.
  destruct (Prim2SF x) as [s | s | | s m e]; try destruct s; cbn [SFsqrt not_neg];
    intros; try reflexivity; try discriminate.
  destruct (SFsqrt_core_binary prec emax (Zpos m) e) as [[mz ez] lz].
  apply binary_round_aux_not_neg.
Qed.

Lemma mul_positive_not_neg (x y : float) :
  (x <=? 0) = false -> (y <=? 0) = false -> not_neg (Prim2SF (x * y)) = true.
Proof.
  intros Hx Hy. apply leb_zero_false in Hx, Hy. rewrite mul_spec. unfold SF64mul.
  destruct Hx as [-> | Hx]; [ reflexivity | ].
  destruct Hy as [-> | Hy]; [ destruct (Prim2SF x); reflexivity | ].
  destruct (Prim2SF x) as [s | s | | s m e], (Prim2SF y) as [s' | s' | | s' m' e'];
    try destruct s; try destruct s'; try discriminate; cbn [SFmul xorb]; try reflexivity.
  apply binary_round_aux_not_neg.
Qed.

(** *** Rounding an integer never loses it entirely *)

Lemma iter_pos_nat {A : Type} (f : A -> A) (p : positive) (x : A) :
  iter_pos f p x = Nat.iter (Pos.to_nat p) f x.
Proof.
  revert x. induction p as [p IH | p IH | ]; intros x; cbn [iter_pos].
  - rewrite !IH, Pos2Nat.inj_xI, <- Nat.iter_add, <- Nat.iter_succ_r.
    f_equal. lia.
  - rewrite !IH, Pos2Nat.inj_xO, <- Nat.iter_add. f_equal. lia.
  - reflexivity.
Qed.

Lemma shr_1_m (mrs : shr_record) :
  (0 <= shr_m mrs)%Z -> shr_m (shr_1 mrs) = Z.div2 (shr_m mrs).
Proof.
  destruct mrs as [m r s]. cbn [shr_m]. intros H.
  destruct m as [ | [p | p | ] | p]; try reflexivity; lia.
Qed.

Lemma shr_iter_m (n : nat) (mrs : shr_record) :
  (0 <= shr_m mrs)%Z ->
  shr_m (Nat.iter n shr_1 mrs) = Z.shiftr (shr_m mrs) (Z.of_nat n).
Proof.
  intros H. induction n as [ | n IH].
  - cbn [Nat.iter Z.of_nat nat_rect]. symmetry. apply Z.shiftr_0_r.
  - rewrite Nat.iter_succ, shr_1_m, IH.
    + rewrite Z.div2_spec, Z.shiftr_shiftr by lia. f_equal. lia.
    + rewrite IH. apply Z.shiftr_nonneg. exact H.
Qed.

Lemma digits2_pos_lower (p : positive) :
  (2 ^ (Zpos (digits2_pos p) - 1) <= Zpos p)%Z.
Proof.
  induction p as [p IH | p IH | ]; cbn [digits2_pos]; try (cbn; lia).
  - rewrite Pos2Z.inj_succ.
    replace (Z.succ (Zpos (digits2_pos p)) - 1)%Z
      with (Z.succ (Zpos (digits2_pos p) - 1))%Z by lia.
    rewrite Z.pow_succ_r by lia. lia.
  - rewrite Pos2Z.inj_succ.
    replace (Z.succ (Zpos (digits2_pos p)) - 1)%Z
      with (Z.succ (Zpos (digits2_pos p) - 1))%Z by lia.
    rewrite Z.pow_succ_r by lia. lia.
Qed.

Lemma shr_record_of_loc_m (m : Z) (l : location) :
  shr_m (shr_record_of_loc m l) = m.
Proof. destruct l as [ | [ | | ]]; reflexivity. Qed.

Lemma shr_fexp_positive (p : positive) (e : Z) (l : location) :
  (emin <= e)%Z ->
  (0 < shr_m (fst (shr_fexp prec emax (Zpos p) e l)))%Z /\
  (e <= snd (shr_fexp prec emax (Zpos p) e l))%Z.
Proof.
  intros He. unfold shr_fexp, shr. cbn [Zdigits2].
  set (D := Zpos (digits2_pos p)).
  assert (HD : (fexp prec emax (D + e) - e <= D - 1)%Z).
  { unfold fexp, SpecFloat.emin, prec, emax in *. subst D. lia. }
  destruct (fexp prec emax (D + e) - e)%Z as [ | q | q] eqn:N; cbn [fst snd];
    rewrite ?shr_record_of_loc_m; try lia.
  rewrite iter_pos_nat, shr_iter_m by (rewrite shr_record_of_loc_m; lia).
  rewrite shr_record_of_loc_m, positive_nat_Z, Z.shiftr_div_pow2 by lia.
  split; [ | lia ].
  apply Z.lt_le_trans with 1%Z; [ lia | ].
  apply Z.div_le_lower_bound; [ apply Z.pow_pos_nonneg; lia | ].
  rewrite Z.mul_1_r.
  transitivity (2 ^ (D - 1))%Z; [ | apply digits2_pos_lower ].
  apply Z.pow_le_mono_r; lia.
Qed.

Lemma round_nearest_even_positive (m : Z) (l : location) :
  (0 < m)%Z -> (0 < round_nearest_even m l)%Z.
Proof.
  intros H. destruct l as [ | [ | | ]]; cbn; try lia.
  destruct (Z.even m); lia.
Qed.

Lemma binary_round_aux_positive (p : positive) (e : Z) (l : location) :
  (emin <= e)%Z ->
  positive_sf (binary_round_aux prec emax false (Zpos p) e l) = true.
Proof.
  intros He. unfold binary_round_aux.
  pose proof (shr_fexp_positive p e l He) as [H1 H2].
  destruct (shr_fexp prec emax (Zpos p) e l) as [mrs' e']. cbn [fst snd] in *.
  pose proof (round_nearest_even_positive (shr_m mrs') (loc_of_shr_record mrs') H1) as H3.
  destruct (round_nearest_even (shr_m mrs') (loc_of_shr_record mrs')) as [ | q | q];
    try lia.
  pose proof (shr_fexp_positive q e' loc_Exact ltac:(lia)) as [H4 _].
  destruct (shr_fexp prec emax (Zpos q) e' loc_Exact) as [mrs'' e'']. cbn [fst] in H4.
  destruct (shr_m mrs''); try lia.
  destruct (e'' <=? emax - prec)%Z; reflexivity.
Qed.

Lemma binary_normalize_int_positive (p : positive) :
  positive_sf (binary_normalize prec emax (Zpos p) 0 false) = true.
Proof.
  cbn [binary_normalize]. unfold binary_round, shl_align.
  set (t := fexp prec emax (Zpos (digits2_pos p) + 0)).
  assert (Ht : (emin <= t)%Z) by (subst t; unfold fexp; lia).
  destruct (t - 0)%Z as [ | d | d] eqn:E;
    apply binary_round_aux_positive; unfold SpecFloat.emin, prec, emax in *; lia.
Qed.

(** *** [float(n)] on the integers a list length can take *)

Lemma Prim2SF_float_of_int (z : Z) :
  (0 <= z < 2 ^ 63)%Z ->
  Prim2SF (Py.float_of_int z) = binary_normalize prec emax z 0 false.
Proof.
  intros H. unfold Py.float_of_int.
  rewrite <- (Z.mod_small z Uint63Axioms.wB) at 1 by exact H.
  rewrite <- Uint63.of_Z_spec, <- of_uint63_spec, SF2Prim_Prim2SF, of_uint63_spec.
  rewrite Uint63.of_Z_spec, Z.mod_small by exact H. reflexivity.
Qed.

Lemma float_of_int_positive (z : Z) :
  (0 < z < 2 ^ 63)%Z -> positive_sf (Prim2SF (Py.float_of_int z)) = true.
Proof.
  intros H. rewrite Prim2SF_float_of_int by lia.
  destruct z as [ | p | p]; try lia. apply binary_normalize_int_positive.
Qed.

End FloatShape.

(** *** Truncating a quotient by 1000.0 *)

Module FloatInt.

Local Open Scope Z_scope.













End FloatInt.

Module FloatDiv.

Local Open Scope float_scope.

Lemma Prim2SF_one : Prim2SF 1 = S754_finite false 4503599627370496 (-52).
Proof. vm_compute. reflexivity. Qed.

Lemma SFdiv_self (s : bool) (m : positive) (e : Z) :
  SFdiv prec emax (S754_finite s m e) (S754_finite s m e)
  = S754_finite false 4503599627370496 (-52).
Proof.
  cbn [SFdiv]. unfold SFdiv_core_binary. cbn [Zdigits2].
  rewrite Z.sub_diag, xorb_nilpotent.
  replace (Zpos (digits2_pos m) + e - (Zpos (digits2_pos m) + e))%Z with 0%Z by lia.
  change (Z.min (fexp prec emax 0) 0) with (-53)%Z.
  change (0 - -53)%Z with 53%Z. cbv iota.
  rewrite Z.shiftl_mul_pow2 by lia.
  assert (E : Z.div_eucl (Zpos m * 2 ^ 53) (Zpos m) = (2 ^ 53, 0)%Z).
  { pose proof (Z.div_eucl_eq (Zpos m * 2 ^ 53) (Zpos m) ltac:(lia)) as D.
    pose proof (Z.mod_pos_bound (Zpos m * 2 ^ 53) (Zpos m) ltac:(lia)) as B.
    unfold Z.modulo in B.
    destruct (Z.div_eucl (Zpos m * 2 ^ 53) (Zpos m)) as [q r].
    assert (q = 2 ^ 53)%Z by nia. subst q. f_equal. lia. }
  rewrite E.
  replace (new_location (Zpos m) 0) with loc_Exact
    by (unfold new_location; destruct (Z.even (Zpos m)); reflexivity).
  vm_compute. reflexivity.
Qed.

(** A finite non-zero float divided by itself is exactly 1.0. *)
Lemma div_self (x : float) :
  (0 <? x) = true -> (x <? infinity) = true -> x / x = 1.
Proof.
  intros Hpos Hfin. apply Prim2SF_inj. rewrite div_spec, Prim2SF_one.
  rewrite ltb_spec in Hpos, Hfin. rewrite FloatShape.Prim2SF_zero in Hpos.
  change (Prim2SF infinity) with (S754_infinity false) in Hfin.
  destruct (Prim2SF x) as [s | s | | s m e]; try destruct s; try discriminate.
  apply SFdiv_self.
Qed.

End FloatDiv.

Module FloatOrder.

Local Open Scope float_scope.

Lemma is_nan_false (x : float) :
  is_nan x = false <-> FloatFacts.not_nan (Prim2SF x).
Proof.
  unfold is_nan. rewrite negb_false_iff, eqb_spec. unfold SFeqb. split.
  - destruct (Prim2SF x); cbn; try discriminate; auto.
  - intros N. pose proof (FloatFacts.SFcompare_key (Prim2SF x) (Prim2SF x) N N) as K.
    destruct (FloatFacts.key (Prim2SF x)) as [[k1 k2] k3].
    destruct (SFcompare (Prim2SF x) (Prim2SF x)) as [[ | | ] | ];
      unfold FloatFacts.lt3 in K; try reflexivity; try lia; tauto.
Qed.

Lemma abs_is_nan (x : float) : is_nan (abs x) = is_nan x.
Proof.
  destruct (is_nan x) eqn:E.
  - destruct (is_nan (abs x)) eqn:E'; [ reflexivity | ].
    apply is_nan_false in E'. rewrite abs_spec in E'.
    assert (N : FloatFacts.not_nan (Prim2SF x)) by (destruct (Prim2SF x); exact E' || exact I).
    apply is_nan_false in N. congruence.
  - apply is_nan_false. apply is_nan_false in E. rewrite abs_spec.
    destruct (Prim2SF x); exact E || exact I.
Qed.

Lemma abs_nonneg (x : float) : is_nan x = false -> (0 <=? abs x) = true.
Proof.
  intros N. apply is_nan_false in N.
  rewrite leb_spec, abs_spec, FloatShape.Prim2SF_zero.
  destruct (Prim2SF x) as [s | s | | s m e]; cbn in *; tauto || reflexivity.
Qed.

Lemma leb_refl (x : float) : is_nan x = false -> (x <=? x) = true.
Proof.
  intros N. apply is_nan_false in N. rewrite leb_spec, FloatFacts.SFleb_key.
  repeat split; auto. right.
  destruct (FloatFacts.key (Prim2SF x)) as [[k1 k2] k3]. cbn. auto.
Qed.

Lemma leb_trans (x y z : float) :
  (x <=? y) = true -> (y <=? z) = true -> (x <=? z) = true.
Proof.
  rewrite !leb_spec, !FloatFacts.SFleb_key. intros (Nx & Ny & L1) (_ & Nz & L2).
  repeat split; auto.
  destruct (FloatFacts.key (Prim2SF x)) as [[? ?] ?],
           (FloatFacts.key (Prim2SF y)) as [[? ?] ?],
           (FloatFacts.key (Prim2SF z)) as [[? ?] ?];
    unfold FloatFacts.lt3, FloatFacts.eq3 in *; lia.
Qed.

Lemma ltb_leb (x y : float) : (x <? y) = true -> (x <=? y) = true.
Proof.
  rewrite ltb_spec, leb_spec, FloatFacts.SFltb_key, FloatFacts.SFleb_key. tauto.
Qed.

Lemma not_ltb_leb (x y : float) :
  is_nan x = false -> is_nan y = false -> (x <? y) = false -> (y <=? x) = true.
Proof.
  intros Nx Ny H. apply is_nan_false in Nx, Ny.
  rewrite leb_spec, FloatFacts.SFleb_key. repeat split; auto.
  assert (L : ~ FloatFacts.lt3 (FloatFacts.key (Prim2SF x)) (FloatFacts.key (Prim2SF y))).
  { intros L. rewrite ltb_spec in H.
    assert (T : SFltb (Prim2SF x) (Prim2SF y) = true) by (apply FloatFacts.SFltb_key; auto).
    congruence. }
  destruct (FloatFacts.key (Prim2SF x)) as [[? ?] ?],
           (FloatFacts.key (Prim2SF y)) as [[? ?] ?];
    unfold FloatFacts.lt3, FloatFacts.eq3 in *; lia.
Qed.

Lemma ltb_not_nan_l (x y : float) : (x <? y) = true -> is_nan x = false.
Proof.
  rewrite ltb_spec, FloatFacts.SFltb_key. intros (N & _). now apply is_nan_false.
Qed.



End FloatOrder.

(* ================================================================= *)
(** ** CrossChannelAnalyzer: the lag bound and the first maximum *)


Section FirstMaximum.

Variables a b : list float.


End FirstMaximum.



(** The running maximum of [max(...)] over floats none of which is a NaN:
    it is one of the items and no item exceeds it. *)
Lemma max_from_spec (l : list float) (first : float) :
  (forall v, In v (first :: l) -> is_nan v = false) ->
  is_nan (Py.max_from first l) = false /\
  In (Py.max_from first l) (first :: l) /\
  forall v, In v (first :: l) -> (v <=? Py.max_from first l)%float = true.
Proof.
  revert first. induction l as [ | v l IH]; intros first N.
  - assert (N1 : is_nan first = false) by (apply N; left; reflexivity).
    cbn [Py.max_from fold_left].
    split; [ exact N1 | split; [ left; reflexivity | ] ].
    intros v [<- | []]. now apply FloatOrder.leb_refl.
  - unfold Py.max_from. cbn [fold_left]. fold (Py.max_from (if (first <? v)%float then v else first) l).
    set (first' := if (first <? v)%float then v else first).
    assert (N1 : is_nan first = false) by (apply N; left; reflexivity).
    assert (N2 : is_nan v = false) by (apply N; right; left; reflexivity).
    assert (F : (first <=? first')%float = true /\ (v <=? first')%float = true /\
                (first' = first \/ first' = v)).
    { subst first'. destruct (first <? v)%float eqn:E.
      - repeat split; auto using FloatOrder.ltb_leb, FloatOrder.leb_refl.
      - repeat split; auto using FloatOrder.not_ltb_leb, FloatOrder.leb_refl. }
    destruct F as (F1 & F2 & F3).
    destruct (IH first') as (M1 & M2 & M3).
    { intros w [<- | Hw]; [ destruct F3 as [-> | ->]; assumption | apply N; right; right; exact Hw ]. }
    split; [ exact M1 | ]. split.
    + destruct M2 as [<- | M2]; [ destruct F3 as [-> | ->]; cbn; auto | right; right; exact M2 ].
    + intros w [<- | [<- | Hw]].
      * eapply FloatOrder.leb_trans; [ exact F1 | apply M3; left; reflexivity ].
      * eapply FloatOrder.leb_trans; [ exact F2 | apply M3; left; reflexivity ].
      * apply M3. right. exact Hw.
Qed.

Lemma peak_bounds (arr : list float) :
  (forall v, In v arr -> is_nan v = false) ->
  (0 <=? peak arr)%float = true /\
  (forall v, In v arr -> (abs v <=? peak arr)%float = true) /\
  (arr <> [] -> exists v, In v arr /\ peak arr = abs v).
Proof.
  intros N. unfold peak. destruct arr as [ | x r].
  - cbn. repeat split; try reflexivity; [ intros v [] | congruence ].
  - cbn [map].
    destruct (max_from_spec (map abs r) (abs x)) as (M1 & M2 & M3).
    { intros w Hw. change (abs x :: map abs r) with (map abs (x :: r)) in Hw.
      apply in_map_iff in Hw. destruct Hw as (u & <- & Hu).
      rewrite FloatOrder.abs_is_nan. now apply N. }
    split; [ | split ].
    + eapply FloatOrder.leb_trans; [ apply (FloatOrder.abs_nonneg x); apply N; left; reflexivity | ].
      apply M3. left. reflexivity.
    + intros v Hv. apply M3. change (abs x :: map abs r) with (map abs (x :: r)).
      now apply in_map.
    + intros _. change (abs x :: map abs r) with (map abs (x :: r)) in M2.
      apply in_map_iff in M2. destruct M2 as (u & E & Hu). exists u. auto.
Qed.

(** X1 (peak).  On a buffer without NaN, [peak] is non-negative, bounds the
    magnitude of every sample, and on a non-empty buffer is the magnitude
    of one of them. *)
Theorem peak_is_greatest_magnitude (arr : list float) :
  (forall v, In v arr -> is_nan v = false) ->
  (0 <=? peak arr)%float = true /\
  (forall v, In v arr -> (abs v <=? peak arr)%float = true) /\
  (arr <> [] -> exists v, In v arr /\ peak arr = abs v).
Proof. exact (peak_bounds arr). Qed.

Lemma peak_is_greatest_magnitude_witness :
  (0 <=? peak [0.5; -1; 0.25])%float = true /\
  (forall v, In v [0.5; -1; 0.25]%float -> (abs v <=? peak [0.5; -1; 0.25])%float = true) /\
  ([0.5; -1; 0.25]%float <> [] -> exists v, In v [0.5; -1; 0.25]%float /\ peak [0.5; -1; 0.25]%float = abs v).
Proof.
  apply (peak_is_greatest_magnitude [0.5; -1; 0.25]%float).
  intros v [<- | [<- | [<- | []]]]; vm_compute; reflexivity.
Defined.

(* ================================================================= *)
(** ** ScalarStats *)

Lemma truediv_by_length (x : float) (n : Z) :
  (0 < n < 2 ^ 63)%Z ->
  Py.truediv x (Py.float_of_int n) = Ok (x / Py.float_of_int n)%float.
Proof.
  intros H. unfold Py.truediv.
  now rewrite (FloatShape.eqb_zero_positive _ (FloatShape.float_of_int_positive n H)).
Qed.

Lemma sum_squares_not_neg (arr : list float) (s : float) :
  FloatShape.not_neg (Prim2SF s) = true ->
  FloatShape.not_neg (Prim2SF (fold_left (fun s v => (s + v * v)%float) arr s)) = true.
Proof.
  revert s. induction arr as [ | v r IH]; intros s H; [ exact H | ].
  cbn [fold_left]. apply IH. apply FloatShape.add_not_neg; [ exact H | ].
  apply FloatShape.mul_self_not_neg.
Qed.

Lemma len_cons_range {A : Type} (x : A) (r : list A) :
  (Py.len (x :: r) < 2 ^ 63)%Z -> (0 < Py.len (x :: r) < 2 ^ 63)%Z.
Proof. unfold Py.len. cbn [length]. lia. Qed.

Lemma rms_returns (arr : list float) :
  (Py.len arr < 2 ^ 63)%Z ->
  exists r, rms arr = Ok r /\ (r <? 0)%float = false.
Proof.
  intros H. destruct arr as [ | x l].
  - exists 0%float. split; reflexivity.
  - pose proof (len_cons_range x l H) as B.
    unfold rms. rewrite truediv_by_length by exact B. cbn [bind].
    set (q := (fold_left _ (x :: l) 0 / _)%float).
    assert (Q : FloatShape.not_neg (Prim2SF q) = true).
    { apply FloatShape.div_not_neg.
      - apply sum_squares_not_neg. rewrite FloatShape.Prim2SF_zero. reflexivity.
      - apply FloatShape.float_of_int_positive. exact B. }
    unfold Py.math_sqrt. rewrite FloatShape.ltb_zero, Q. cbn [negb].
    eexists. split; [ reflexivity | ].
    rewrite FloatShape.ltb_zero, FloatShape.sqrt_not_neg by exact Q. reflexivity.
Qed.

Lemma mean_returns (arr : list float) :
  (Py.len arr < 2 ^ 63)%Z -> exists m, mean arr = Ok m.
Proof.
  intros H. destruct arr as [ | x l]; [ now exists 0%float | ].
  unfold mean. rewrite truediv_by_length by (apply len_cons_range; exact H).
  now eexists.
Qed.

(** X2 (rms, mean).  On any buffer a Python list can hold (fewer than 2^63
    items) [rms] and [mean] return: the division is never by zero and the
    square root never sees a negative number; and [rms] is never negative. *)
Theorem rms_mean_never_raise (arr : list float) :
  (Py.len arr < 2 ^ 63)%Z ->
  exists r m, rms arr = Ok r /\ mean arr = Ok m /\ (r <? 0)%float = false.
Proof.
  intros H. destruct (rms_returns arr H) as (r & R & N).
  destruct (mean_returns arr H) as (m & M). exists r, m. auto.
Qed.

Lemma rms_mean_never_raise_witness :
  exists r m, rms [0.5; -1; 0.25]%float = Ok r /\ mean [0.5; -1; 0.25]%float = Ok m /\
              (r <? 0)%float = false.
Proof.
  apply (rms_mean_never_raise [0.5; -1; 0.25]%float). vm_compute. reflexivity.
Defined.

(** *** Silence *)

Lemma zero_div_positive (y : float) :
  FloatShape.positive_sf (Prim2SF y) = true -> (0 / y)%float = 0%float.
Proof.
  intros H. apply Prim2SF_inj. rewrite div_spec, FloatShape.Prim2SF_zero.
  unfold SF64div. destruct (Prim2SF y) as [s | s | | s m e]; try destruct s;
    try discriminate; reflexivity.
Qed.

Lemma fold_zeros (f : float -> float -> float) (n : nat) :
  f 0%float 0%float = 0%float ->
  fold_left f (repeat 0%float n) 0%float = 0%float.
Proof.
  intros H. induction n as [ | n IH]; [ reflexivity | ].
  cbn [repeat fold_left]. rewrite H. exact IH.
Qed.

(** X3 (silence).  For an all-zero buffer of any length Python can hold,
    [rms], [peak] and [mean] are exactly 0.0, the level is the sentinel
    -999.0 and the dynamic range is 0.0. *)
Theorem silence_metrics (n : nat) :
  (Z.of_nat n < 2 ^ 63)%Z ->
  rms (repeat 0%float n) = Ok 0%float /\
  mean (repeat 0%float n) = Ok 0%float /\
  peak (repeat 0%float n) = 0%float /\
  forall log10,
    dbfs log10 0 = (-999)%float /\
    analyze_dynamic_range log10 (repeat 0%float n) = Ok 0%float.
Proof.
  intros H.
  assert (P : peak (repeat 0%float n) = 0%float).
  { unfold peak. destruct n as [ | k]; [ reflexivity | ].
    cbn [repeat map]. change (abs 0) with 0%float. unfold Py.max_from.
    rewrite map_repeat. change (abs 0) with 0%float.
    apply (fold_zeros (fun m v => if (m <? v)%float then v else m)). reflexivity. }
  assert (R : rms (repeat 0%float n) = Ok 0%float /\ mean (repeat 0%float n) = Ok 0%float).
  { destruct n as [ | k]; [ split; reflexivity | ].
    assert (B : (0 < Py.len (repeat 0%float (S k)) < 2 ^ 63)%Z)
      by (unfold Py.len; rewrite repeat_length; lia).
    unfold rms, mean, Py.sum. change (repeat 0%float (S k)) with (0%float :: repeat 0%float k) at 1 4.
    cbv iota. rewrite !truediv_by_length by exact B. cbn [bind].
    rewrite (fold_zeros (fun s v => (s + v * v)%float)) by reflexivity.
    rewrite (fold_zeros add) by reflexivity.
    rewrite zero_div_positive by (apply FloatShape.float_of_int_positive; exact B).
    split; reflexivity. }
  destruct R as [R M]. repeat split; auto.
  unfold analyze_dynamic_range. destruct (is_empty (repeat 0%float n)); [ reflexivity | ].
  rewrite R. reflexivity.
Qed.

Lemma silence_metrics_witness :
  rms (repeat 0%float 5) = Ok 0%float /\
  mean (repeat 0%float 5) = Ok 0%float /\
  peak (repeat 0%float 5) = 0%float /\
  forall log10,
    dbfs log10 0 = (-999)%float /\
    analyze_dynamic_range log10 (repeat 0%float 5) = Ok 0%float.
Proof.
  apply (silence_metrics 5). vm_compute. reflexivity.
Defined.

(** *** Dynamic range *)

Lemma sqrt_positive (q : float) :
  (0 <? sqrt q)%float = true -> FloatShape.positive_sf (Prim2SF q) = true.
Proof.
  rewrite ltb_spec, sqrt_spec, FloatShape.Prim2SF_zero. unfold SF64sqrt.
  destruct (Prim2SF q) as [s | s | | s m e]; try destruct s; cbn [SFsqrt];
    try discriminate; reflexivity.
Qed.

Lemma div_positive_numerator (s n : float) :
  FloatShape.positive_sf (Prim2SF (s / n)) = true ->
  FloatShape.not_neg (Prim2SF s) = true ->
  FloatShape.positive_sf (Prim2SF n) = true ->
  FloatShape.positive_sf (Prim2SF s) = true.
Proof.
  rewrite div_spec. unfold SF64div.
  destruct (Prim2SF s) as [a | a | | a m e], (Prim2SF n) as [b | b | | b m' e'];
    try destruct a; try destruct b; cbn [SFdiv xorb]; try discriminate; auto.
Qed.

Lemma sum_squares_positive (arr : list float) (s : float) :
  Prim2SF s = S754_zero false ->
  FloatShape.positive_sf
    (Prim2SF (fold_left (fun s v => (s + v * v)%float) arr s)) = true ->
  exists v, In v arr /\ Prim2SF (v * v) <> S754_zero false.
Proof.
  revert s. induction arr as [ | v r IH]; intros s Hs H.
  - cbn in H. rewrite Hs in H. discriminate.
  - cbn [fold_left] in H.
    destruct (Prim2SF (v * v)) as [b | b | | b m e] eqn:E; try destruct b;
      try (exists v; split; [ left; reflexivity | rewrite E; discriminate ]).
    destruct (IH (s + v * v)%float) as (w & Hw & Nw).
    + rewrite add_spec, Hs, E. reflexivity.
    + exact H.
    + exists w. split; [ right; exact Hw | exact Nw ].
Qed.

Lemma square_nonzero_abs_positive (v : float) :
  is_nan v = false -> Prim2SF (v * v) <> S754_zero false -> (0 <? abs v)%float = true.
Proof.
  intros N. apply FloatOrder.is_nan_false in N.
  rewrite mul_spec, ltb_spec, abs_spec, FloatShape.Prim2SF_zero. unfold SF64mul.
  destruct (Prim2SF v) as [s | s | | s m e]; cbn [SFmul SFabs]; intros H;
    try reflexivity; try (exfalso; exact N).
  rewrite xorb_nilpotent in H. congruence.
Qed.

Lemma positive_not_leb_zero (x : float) : (0 <? x)%float = true -> (x <=? 0)%float = false.
Proof.
  intros H. destruct (x <=? 0)%float eqn:E; [ | reflexivity ].
  pose proof (FloatFacts.ltb_leb_trans _ _ _ H E) as T.
  now rewrite FloatFacts.ltb_irrefl in T.
Qed.

(** X4 (dynamic range).  On a buffer without NaN the dynamic range is
    either 0.0 (when the RMS is not positive) or the difference of two
    real levels, [20*log10(peak) - 20*log10(rms)]: a positive RMS forces a
    positive peak, so the -999.0 sentinel of [dbfs] never enters the
    difference. *)
Theorem dynamic_range_levels (arr : list float) :
  (forall v, In v arr -> is_nan v = false) ->
  (Py.len arr < 2 ^ 63)%Z ->
  exists r,
    rms arr = Ok r /\
    forall log10,
      analyze_dynamic_range log10 arr =
      Ok (if (0 <? r)%float then (20 * log10 (peak arr) - 20 * log10 r)%float
          else 0%float).
Proof.
  intros N H. destruct arr as [ | x l].
  - exists 0%float. split; [ reflexivity | ]. intros log10. reflexivity.
  - pose proof (len_cons_range x l H) as B.
    assert (R : rms (x :: l) =
                Py.math_sqrt (fold_left (fun s v => (s + v * v)%float) (x :: l) 0
                              / Py.float_of_int (Py.len (x :: l)))%float).
    { unfold rms. rewrite truediv_by_length by exact B. reflexivity. }
    set (s := fold_left (fun s v => (s + v * v)%float) (x :: l) 0%float) in R.
    set (n := Py.float_of_int (Py.len (x :: l))) in R.
    assert (S0 : FloatShape.not_neg (Prim2SF s) = true)
      by (apply sum_squares_not_neg; rewrite FloatShape.Prim2SF_zero; reflexivity).
    assert (Pn : FloatShape.positive_sf (Prim2SF n) = true)
      by (apply FloatShape.float_of_int_positive; exact B).
    assert (Q : FloatShape.not_neg (Prim2SF (s / n)) = true)
      by (apply FloatShape.div_not_neg; assumption).
    unfold Py.math_sqrt in R. rewrite FloatShape.ltb_zero, Q in R. cbn [negb] in R.
    exists (sqrt (s / n)). split; [ exact R | ]. intros log10.
    unfold analyze_dynamic_range. cbn [is_empty]. rewrite R. cbn [bind].
    destruct (0 <? sqrt (s / n))%float eqn:P; [ | reflexivity ].
    unfold dbfs. rewrite (positive_not_leb_zero _ P).
    apply sqrt_positive in P.
    apply (div_positive_numerator s n P S0) in Pn.
    destruct (sum_squares_positive (x :: l) 0%float FloatShape.Prim2SF_zero Pn)
      as (v & Hv & Nv).
    pose proof (square_nonzero_abs_positive v (N v Hv) Nv) as Av.
    destruct (peak_bounds (x :: l) N) as (_ & Pk & _).
    pose proof (FloatFacts.ltb_leb_trans _ _ _ Av (Pk v Hv)) as Ppos.
    rewrite (positive_not_leb_zero _ Ppos). reflexivity.
Qed.

Lemma dynamic_range_levels_witness :
  exists r,
    rms [0.5; -1; 0.25]%float = Ok r /\
    forall log10,
      analyze_dynamic_range log10 [0.5; -1; 0.25]%float =
      Ok (if (0 <? r)%float then (20 * log10 (peak [0.5; -1; 0.25]%float) - 20 * log10 r)%float
          else 0%float).
Proof.
  apply (dynamic_range_levels [0.5; -1; 0.25]%float).
  - intros v [<- | [<- | [<- | []]]]; vm_compute; reflexivity.
  - vm_compute. reflexivity.
Defined.

(* ================================================================= *)
(** ** Decimation and alignment helpers *)

Lemma take_every_length {A : Type} (step : nat) (l : list A) :
  1 <= step ->
  forall phase, phase < step ->
  length (take_every step phase l) = (length l + step - 1 - phase) / step.
Proof.
  intros Hs. induction l as [ | x r IH]; intros phase Hp.
  - cbn [take_every length]. symmetry. apply Nat.div_small. lia.
  - cbn [take_every length]. destruct phase as [ | k].
    + cbn [length]. rewrite IH by lia.
      replace (length r + step - 1 - (step - 1)) with (length r) by lia.
      replace (S (length r) + step - 1 - 0) with (length r + 1 * step) by lia.
      rewrite Nat.div_add by lia. lia.
    + rewrite IH by lia. f_equal. lia.
Qed.

Lemma take_every_nth {A : Type} (step : nat) (l : list A) :
  1 <= step ->
  forall phase k, phase < step ->
  nth_error (take_every step phase l) k = nth_error l (phase + k * step).
Proof.
  intros Hs. induction l as [ | x r IH]; intros phase k Hp.
  - cbn [take_every]. now rewrite !nth_error_nil.
  - cbn [take_every]. destruct phase as [ | p].
    + destruct k as [ | k]; [ reflexivity | ].
      cbn [nth_error]. rewrite IH by lia.
      replace (0 + S k * step) with (S (step - 1 + k * step)) by lia. reflexivity.
    + rewrite IH by lia. reflexivity.
Qed.

(** X5 (downsample).  [downsample] keeps exactly the samples at the
    indices 0, s, 2s, ... where s is the step, or 1 when the step is below
    2: there are [ceil(len/s)] of them and the k-th is [arr[k*s]].  In
    particular a step of 1 or less returns the buffer as it is. *)
Theorem downsample_keeps_every_step (arr : list float) (step : Z) :
  length (downsample arr step)
  = (length arr + Z.to_nat (Z.max 1 step) - 1) / Z.to_nat (Z.max 1 step) /\
  forall k, nth_error (downsample arr step) k
            = nth_error arr (k * Z.to_nat (Z.max 1 step)).
Proof.
  unfold downsample. destruct (Z.leb_spec step 1) as [H | H].
  - rewrite Z.max_l by lia. change (Z.to_nat 1) with 1. split.
    + rewrite Nat.div_1_r. lia.
    + intros k. now rewrite Nat.mul_1_r.
  - rewrite Z.max_r by lia. split.
    + rewrite take_every_length by lia. f_equal. lia.
    + intros k. rewrite take_every_nth by lia. reflexivity.
Qed.

(** X6 (truncate_same_len).  The two results are the prefixes of the
    inputs of the common length [min(len(a), len(b))]. *)
Theorem truncate_same_len_prefixes (a b : list float) :
  fst (truncate_same_len a b) = firstn (Nat.min (length a) (length b)) a /\
  snd (truncate_same_len a b) = firstn (Nat.min (length a) (length b)) b /\
  length (fst (truncate_same_len a b)) = Nat.min (length a) (length b) /\
  length (snd (truncate_same_len a b)) = Nat.min (length a) (length b).
Proof.
  unfold truncate_same_len, Py.len. cbn [fst snd].
  rewrite <- Nat2Z.inj_min, !slice_prefix, Nat2Z.id by lia.
  rewrite !length_firstn. repeat split; lia.
Qed.

(** X7 (analysis rate).  For a file rate of at least 8 kHz the decimation
    step of [main] brings the rate handed to [best_lag] into
    [8000, 16000) and is the largest step that keeps it at 8000 or
    more. *)
Theorem analysis_rate_bounds (sr : Z) :
  (8000 <= sr)%Z ->
  (8000 <= analysis_rate sr < 16000)%Z /\
  (1 <= analysis_step sr)%Z /\
  (sr / (analysis_step sr + 1) < 8000)%Z.
Proof.
  intros H. unfold analysis_rate, analysis_step.
  assert (Q : (1 <= sr / 8000)%Z) by (apply Z.div_le_lower_bound; lia).
  rewrite Z.max_r by lia.
  pose proof (Z.mul_div_le sr 8000 ltac:(lia)) as L.
  pose proof (Z.mul_succ_div_gt sr 8000 ltac:(lia)) as U.
  repeat split.
  - apply Z.div_le_lower_bound; lia.
  - apply Z.div_lt_upper_bound; lia.
  - lia.
  - apply Z.div_lt_upper_bound; lia.
Qed.

Lemma analysis_rate_bounds_witness :
  (8000 <= analysis_rate 44100 < 16000)%Z /\
  (1 <= analysis_step 44100)%Z /\
  (44100 / (analysis_step 44100 + 1) < 8000)%Z.
Proof.
  apply (analysis_rate_bounds 44100). lia.
Defined.

(* ================================================================= *)
(** ** SampleDecoder: outcomes *)

Lemma len_mod2 {A : Type} (l : list A) :
  (Py.len l mod 2 = 0 \/ Py.len l mod 2 = 1)%Z.
Proof. pose proof (Z.mod_pos_bound (Py.len l) 2 ltac:(lia)). lia. Qed.

(** X8 (decoder failures).  [read_wav_stereo] raises in exactly three
    situations: the file is not stereo ([RuntimeError], whatever the
    width and payload); it is stereo with a width other than 2 or 4
    ([RuntimeError]); it is stereo, 2 bytes wide, and the payload has an
    odd number of bytes ([ValueError]). *)
Theorem read_wav_stereo_raises_iff (nch sr sw : Z) (frames : list byte) (e : exn) :
  read_wav_stereo nch sr sw frames = Raise e <->
  (nch <> 2%Z /\ e = RuntimeError) \/
  (nch = 2%Z /\ sw <> 2%Z /\ sw <> 4%Z /\ e = RuntimeError) \/
  (nch = 2%Z /\ sw = 2%Z /\ (Py.len frames mod 2 = 1)%Z /\ e = ValueError).
Proof.
  destruct (Z.eq_dec nch 2) as [-> | Hn].
  - destruct (Z.eq_dec sw 2) as [-> | H2].
    + destruct (len_mod2 frames) as [E | O].
      * rewrite (read_wav_stereo_16bit_even sr frames E). split; [ discriminate | ].
        intros [[? _] | [(_ & ? & _) | (_ & _ & ? & _)]]; congruence || lia.
      * rewrite (read_wav_stereo_16bit_odd sr frames O). split.
        -- intros [= <-]. right. right. auto.
        -- intros [[? _] | [(_ & ? & _) | (_ & _ & _ & ->)]]; congruence.
    + destruct (Z.eq_dec sw 4) as [-> | H4].
      * destruct (read_wav_stereo_32bit_total sr frames) as (l & r & E & _).
        rewrite E. split; [ discriminate | ].
        intros [[? _] | [(_ & _ & ? & _) | (_ & ? & _)]]; congruence || lia.
      * unfold read_wav_stereo. cbn [Z.eqb negb Pos.eqb].
        destruct (Z.eqb_spec sw 2); [ contradiction | ].
        destruct (Z.eqb_spec sw 4); [ contradiction | ].
        split.
        -- intros [= <-]. right. left. auto.
        -- intros [[? _] | [(_ & _ & _ & ->) | (_ & ? & _)]]; congruence.
  - unfold read_wav_stereo. destruct (Z.eqb_spec nch 2); [ contradiction | ].
    cbn [negb]. split.
    + intros [= <-]. left. auto.
    + intros [[_ ->] | [(? & _) | (? & _)]]; congruence.
Qed.

(** X9 (decoder result).  Whenever [read_wav_stereo] returns, the sample
    rate is passed through unchanged and the two channels have the same
    number of frames, [len(frames) // sw // 2]. *)
Theorem read_wav_stereo_channels_equal (nch sr sw : Z) (frames : list byte)
    (sr' : Z) (left right : list float) :
  read_wav_stereo nch sr sw frames = Ok (sr', left, right) ->
  sr' = sr /\
  length left = length right /\
  Py.len left = (Py.len frames / sw / 2)%Z.
Proof.
  intros H.
  assert (N : nch = 2%Z).
  { destruct (Z.eq_dec nch 2) as [ | Hn]; [ assumption | ].
    unfold read_wav_stereo in H. destruct (Z.eqb_spec nch 2); [ contradiction | ].
    discriminate. }
  subst nch.
  destruct (Z.eq_dec sw 2) as [-> | H2]; [ | destruct (Z.eq_dec sw 4) as [-> | H4] ].
  - destruct (len_mod2 frames) as [E | O].
    + rewrite (read_wav_stereo_16bit_even sr frames E) in H.
      injection H as <- <- <-. rewrite !length_map, !length_seq.
      repeat split. unfold Py.len. rewrite length_map, length_seq.
      change (fst (Nat.divmod (length frames) 3 0 3)) with (length frames / 4).
      rewrite Z.div_div by lia. now rewrite (Nat2Z.inj_div _ 4).
    + rewrite (read_wav_stereo_16bit_odd sr frames O) in H. discriminate.
  - destruct (read_wav_stereo_32bit_total sr frames) as (l & r & E & Ll & Lr).
    rewrite E in H. injection H as <- <- <-. repeat split; [ congruence | ].
    unfold Py.len. rewrite Ll, !Nat2Z.inj_div. reflexivity.
  - unfold read_wav_stereo in H. cbn [Z.eqb negb Pos.eqb] in H.
    destruct (Z.eqb_spec sw 2); [ contradiction | ].
    destruct (Z.eqb_spec sw 4); [ contradiction | ]. discriminate.
Qed.

Lemma read_wav_stereo_channels_equal_witness :
  44100%Z = 44100%Z /\
  length [0.5%float] = length [(-0.5)%float] /\
  Py.len [0.5%float] = (Py.len [x00; x40; x00; xc0] / 2 / 2)%Z.
Proof.
  apply (read_wav_stereo_channels_equal 2 44100 2 [x00; x40; x00; xc0]).
  vm_compute. reflexivity.
Defined.

(* ================================================================= *)
(** ** SampleDecoder: 16-bit samples *)

Module Exhaustive.

(** [f] holds on the [p] integers from [lo] on. *)
Fixpoint holds_from (f : Z -> bool) (lo : Z) (p : positive) : bool :=
  match p with
  | xH => f lo
  | xO q => holds_from f lo q && holds_from f (lo + Zpos q) q
  | xI q => f lo && holds_from f (lo + 1) q && holds_from f (lo + 1 + Zpos q) q
  end.

Lemma holds_from_sound (f : Z -> bool) (p : positive) :
  forall lo, holds_from f lo p = true ->
  forall z, (lo <= z < lo + Zpos p)%Z -> f z = true.
Proof.
  induction p as [q IH | q IH | ]; cbn [holds_from]; intros lo H z Hz.
  - apply andb_prop in H. destruct H as [H H2].
    apply andb_prop in H. destruct H as [H0 H1].
    destruct (Z.eq_dec z lo) as [-> | N]; [ exact H0 | ].
    destruct (Z_lt_ge_dec z (lo + 1 + Zpos q)).
    + apply (IH _ H1). lia.
    + apply (IH _ H2). lia.
  - apply andb_prop in H. destruct H as [H1 H2].
    destruct (Z_lt_ge_dec z (lo + Zpos q)).
    + apply (IH _ H1). lia.
    + apply (IH _ H2). lia.
  - replace z with lo by lia. exact H.
Qed.

(** What is checked of one 16-bit value [v]: [v / 32768.0] lies in
    [-1, 1) and times 32768.0 truncates back to [v]. *)
Definition pcm16_ok (v : Z) : bool :=
  let x := (Py.float_of_int v / 32768)%float in
  ((-1) <=? x)%float && (x <? 1)%float &&
  match Py.int_of_float (x * 32768)%float with
  | Ok k => (k =? v)%Z
  | Raise _ => false
  end.

Lemma pcm16_all : holds_from pcm16_ok (-32768) 65536 = true.
Proof. vm_compute. reflexivity. Qed.

End Exhaustive.

Lemma byte_val_range (b : byte) : (0 <= byte_val b < 256)%Z.
Proof.
  unfold byte_val. pose proof (Byte.to_N_bounded b). lia.
Qed.

Lemma s16le_range (b0 b1 : byte) : (-32768 <= s16le b0 b1 < 32768)%Z.
Proof.
  unfold s16le. pose proof (byte_val_range b0). pose proof (byte_val_range b1).
  destruct (Z.ltb_spec (byte_val b0 + 256 * byte_val b1) 32768); lia.
Qed.

Lemma norm16_checked (b0 b1 : byte) :
  ((-1) <=? norm16 b0 b1)%float = true /\
  (norm16 b0 b1 <? 1)%float = true /\
  Py.int_of_float (norm16 b0 b1 * 32768)%float = Ok (s16le b0 b1).
Proof.
  pose proof (Exhaustive.holds_from_sound Exhaustive.pcm16_ok 65536 (-32768)
                Exhaustive.pcm16_all (s16le b0 b1)) as H.
  specialize (H ltac:(pose proof (s16le_range b0 b1); lia)).
  unfold Exhaustive.pcm16_ok in H. fold (norm16 b0 b1) in H.
  apply andb_prop in H. destruct H as [H H3]. apply andb_prop in H. destruct H as [H1 H2].
  repeat split; try assumption.
  destruct (Py.int_of_float (norm16 b0 b1 * 32768)%float) as [k | e]; [ | discriminate ].
  apply Z.eqb_eq in H3. now subst.
Qed.

(** X10 (16-bit samples).  Every sample decoded from a 2-byte payload lies
    in [-1, 1), and the normalisation loses nothing: multiplied back by
    32768.0 it truncates to the PCM integer of two bytes of the payload. *)
Theorem read_wav_stereo_16bit_samples (sr : Z) (frames : list byte)
    (sr' : Z) (left right : list float) :
  read_wav_stereo 2 sr 2 frames = Ok (sr', left, right) ->
  Forall (fun v =>
            ((-1) <=? v)%float = true /\ (v <? 1)%float = true /\
            exists b0 b1, In b0 frames /\ In b1 frames /\
                          Py.int_of_float (v * 32768)%float = Ok (s16le b0 b1))
         (left ++ right).
Proof.
  intros H. apply Forall_forall. intros v Hv.
  destruct (len_mod2 frames) as [E | O];
    [ | rewrite (read_wav_stereo_16bit_odd sr frames O) in H; discriminate ].
  rewrite (read_wav_stereo_16bit_even sr frames E) in H. injection H as _ <- <-.
  pose proof (Nat.Div0.mul_div_le (length frames) 4) as B.
  apply in_app_or in Hv.
  destruct Hv as [Hv | Hv]; apply in_map_iff in Hv; destruct Hv as (k & <- & Hk);
    apply in_seq in Hk;
    try change (fst (Nat.divmod (length frames) 3 0 3)) with (length frames / 4) in Hk;
    match goal with
    | |- context [norm16 ?x ?y] =>
        destruct (norm16_checked x y) as (C1 & C2 & C3);
        repeat split; try assumption; exists x, y; repeat split; try assumption;
        apply nth_In; lia
    end.
Qed.

Lemma read_wav_stereo_16bit_samples_witness :
  Forall (fun v =>
            ((-1) <=? v)%float = true /\ (v <? 1)%float = true /\
            exists b0 b1, In b0 [x00; x40; x00; xc0] /\ In b1 [x00; x40; x00; xc0] /\
                          Py.int_of_float (v * 32768)%float = Ok (s16le b0 b1))
         ([0.5%float] ++ [(-0.5)%float]).
Proof.
  apply (read_wav_stereo_16bit_samples 44100 [x00; x40; x00; xc0] 44100).
  vm_compute. reflexivity.
Defined.

(* ================================================================= *)
(** ** CrossChannelAnalyzer: edge and error behaviour *)

Lemma lag_segments_no_overlap (a b : list float) (lag : Z) :
  a = [] \/ b = [] \/ (Py.len a <= lag)%Z \/ (Py.len b <= - lag)%Z ->
  is_empty (fst (lag_segments a b lag)) || is_empty (snd (lag_segments a b lag)) = true.
Proof.
  intros H. unfold lag_segments, truncate_same_len.
  assert (La : (0 <= Py.len a)%Z) by (unfold Py.len; lia).
  assert (Lb : (0 <= Py.len b)%Z) by (unfold Py.len; lia).
  assert (Ea : a = [] -> Py.len a = 0%Z) by (intros ->; reflexivity).
  assert (Eb : b = [] -> Py.len b = 0%Z) by (intros ->; reflexivity).
  assert (Z0 : forall l : list float, Py.len l = 0%Z -> l = []).
  { intros l E. apply length_zero_iff_nil. unfold Py.len in E. lia. }
  assert (K : forall l : list float, is_empty l = true <-> length l = 0).
  { intros [ | x l]; cbn; split; congruence. }
  apply orb_true_iff. rewrite !K.
  destruct (Z.eqb_spec lag 0) as [-> | NZ]; cbn [fst snd].
  - rewrite !slice_prefix by lia. rewrite !length_firstn.
    assert (Py.len a = 0 \/ Py.len b = 0)%Z by (destruct H as [H | [H | [H | H]]]; auto; lia).
    unfold Py.len in *. lia.
  - destruct (Z.ltb_spec 0 lag) as [P | N]; cbn [fst snd].
    + rewrite (slice_suffix a lag) by lia.
      rewrite slice_prefix by (unfold Py.len; lia).
      rewrite length_firstn, length_skipn. unfold Py.len in *.
      rewrite length_skipn, Nat2Z.id.
      destruct H as [H | [H | [H | H]]]; try (specialize (Ea H)); try (specialize (Eb H)); lia.
    + rewrite (slice_suffix b (- lag)) by lia.
      rewrite slice_prefix by (unfold Py.len; lia).
      rewrite length_firstn, length_skipn. unfold Py.len in *.
      rewrite length_skipn, Nat2Z.id.
      destruct H as [H | [H | [H | H]]]; try (specialize (Ea H)); try (specialize (Eb H)); lia.
Qed.

(** X11 (no overlap).  When the shifted buffers do not overlap - one of them
    is empty, or the lag is at least the length of [a], or its negation at
    least the length of [b] - the correlation is the neutral 0.0; nothing
    is divided. *)
Theorem corr_at_lag_no_overlap (a b : list float) (lag : Z) :
  a = [] \/ b = [] \/ (Py.len a <= lag)%Z \/ (Py.len b <= - lag)%Z ->
  corr_at_lag a b lag = Ok 0%float.
Proof.
  intros H. apply lag_segments_no_overlap in H. unfold corr_at_lag.
  destruct (lag_segments a b lag) as [a2 b2]. cbn [fst snd] in H. now rewrite H.
Qed.

Lemma corr_at_lag_no_overlap_witness :
  corr_at_lag [1%float; 2%float] [3%float; 4%float; 5%float] 2 = Ok 0%float.
Proof.
  apply (corr_at_lag_no_overlap [1%float; 2%float] [3%float; 4%float; 5%float] 2).
  right. right. left. vm_compute. discriminate.
Defined.

Lemma sqrt_guarded (da db : float) :
  (da <=? 0)%float = false -> (db <=? 0)%float = false ->
  Py.math_sqrt (da * db)%float = Ok (sqrt (da * db)).
Proof.
  intros Ha Hb. unfold Py.math_sqrt.
  now rewrite FloatShape.ltb_zero, (FloatShape.mul_positive_not_neg da db Ha Hb).
Qed.

(** X12 (exceptions of corr_at_lag).  The only exception [corr_at_lag] can
    raise is [ZeroDivisionError]: behind the guard on the two variances the
    square root never sees a negative product. *)
Theorem corr_at_lag_raises_only_zero_division (a b : list float) (lag : Z) (e : exn) :
  corr_at_lag a b lag = Raise e -> e = ZeroDivisionError.
Proof.
  unfold corr_at_lag. destruct (lag_segments a b lag) as [a2 b2].
  destruct (is_empty a2 || is_empty b2); [ discriminate | ].
  destruct (mean a2) as [ma | e1] eqn:Ma; cbn [bind];
    [ | intros [= <-]; now apply mean_raises in Ma ].
  destruct (mean b2) as [mb | e2] eqn:Mb; cbn [bind];
    [ | intros [= <-]; now apply mean_raises in Mb ].
  destruct (corr_sums ma mb a2 b2) as [[num da] db].
  destruct (da <=? 0)%float eqn:Ha; [ discriminate | ].
  destruct (db <=? 0)%float eqn:Hb; [ discriminate | ]. cbn [orb].
  rewrite (sqrt_guarded da db Ha Hb). cbn [bind]. unfold Py.truediv.
  destruct (sqrt (da * db) =? 0)%float; congruence.
Qed.

Lemma corr_at_lag_raises_only_zero_division_witness :
  corr_at_lag [0x1p-300%float; (-0x1p-300)%float]
              [0x1p-300%float; (-0x1p-300)%float] 0 = Raise ZeroDivisionError /\
  ZeroDivisionError = ZeroDivisionError.
Proof.
  split; [ vm_compute; reflexivity | ].
  apply (corr_at_lag_raises_only_zero_division
           [0x1p-300%float; (-0x1p-300)%float] [0x1p-300%float; (-0x1p-300)%float] 0).
  vm_compute. reflexivity.
Defined.

Lemma foldM_raises {A S : Type} (f : S -> A -> result S) (pre post : list A)
    (x : A) (s s' : S) (e : exn) :
  foldM f pre s = Ok s' -> f s' x = Raise e ->
  foldM f (pre ++ x :: post) s = Raise e.
Proof.
  revert s. induction pre as [ | y pre IH]; intros s H Hx; cbn [app foldM] in *.
  - injection H as ->. now rewrite Hx.
  - destruct (f s y) as [t | e']; cbn [bind] in *; [ | discriminate ]. now apply IH.
Qed.

Lemma scan_prefix_returns (a b : list float) (pre : list Z) (st : Z * float) :
  (forall l, In l pre -> exists c, corr_at_lag a b l = Ok c) ->
  exists st', foldM (best_lag_step a b) pre st = Ok st'.
Proof.
  revert st. induction pre as [ | l pre IH]; intros st H; [ now exists st | ].
  cbn [foldM]. destruct st as [best bestc]. unfold best_lag_step at 1.
  destruct (H l (or_introl eq_refl)) as (c & ->). cbn [bind].
  apply IH. intros l' Hl'. apply H. now right.
Qed.

(** X13 (a failing lag aborts the search).  If the correlation raises at
    some scanned lag, every earlier lag having returned, [best_lag] raises
    the same exception: it has no handler, so the division by zero of
    [corr_at_lag] takes the whole lag search down. *)
Theorem best_lag_raises_with_corr (a b : list float) (sr max_ms step maxlag : Z)
    (pre post : list Z) (lag : Z) (e : exn) :
  max_lag sr max_ms = Ok maxlag ->
  Py.range (- maxlag) (maxlag + 1) step = Ok (pre ++ lag :: post) ->
  (forall l, In l pre -> exists c, corr_at_lag a b l = Ok c) ->
  corr_at_lag a b lag = Raise e ->
  best_lag a b sr max_ms step = Raise e.
Proof.
  intros Hm Hr Hpre He. unfold best_lag. rewrite Hm. cbn [bind]. rewrite Hr. cbn [bind].
  destruct (scan_prefix_returns a b pre (0%Z, (-2)%float) Hpre) as ([best bestc] & Hs).
  apply (foldM_raises _ pre post lag _ _ e Hs).
  unfold best_lag_step. now rewrite He.
Qed.

Lemma best_lag_raises_with_corr_witness :
  best_lag [0x1p-300%float; (-0x1p-300)%float] [0x1p-300%float; (-0x1p-300)%float]
           1000 1 1
  = Raise ZeroDivisionError.
Proof.
  apply (best_lag_raises_with_corr
           [0x1p-300%float; (-0x1p-300)%float] [0x1p-300%float; (-0x1p-300)%float]
           1000 1 1 1 [(-1)%Z] [1%Z] 0 ZeroDivisionError).
  - vm_compute. reflexivity.
  - vm_compute. reflexivity.
  - intros l [<- | []]. eexists. vm_compute. reflexivity.
  - vm_compute. reflexivity.
Defined.

(** X14 (degenerate search windows).  A zero [step] makes [range] raise
    [ValueError]; a search window with nothing to scan (a negative
    [maxlag], or a negative [step]) returns the initial pair
    [(0, -2.0)], whose "correlation" is not a correlation at all. *)
Theorem best_lag_nothing_to_scan (a b : list float) (sr max_ms step maxlag : Z) :
  max_lag sr max_ms = Ok maxlag ->
  (step = 0 \/ (maxlag < 0 /\ 0 < step) \/ (0 <= maxlag /\ step < 0))%Z ->
  best_lag a b sr max_ms step =
  if (step =? 0)%Z then Raise ValueError else Ok (0%Z, (-2)%float).
Proof.
  intros Hm H. unfold best_lag. rewrite Hm. cbn [bind]. unfold Py.range.
  destruct (Z.eqb_spec step 0) as [-> | NZ]; [ reflexivity | ].
  destruct H as [H | [[H1 H2] | [H1 H2]]]; [ contradiction | | ].
  - destruct (Z.ltb_spec 0 step); [ | lia ].
    destruct (Z.ltb_spec (- maxlag) (maxlag + 1)); [ lia | ]. reflexivity.
  - destruct (Z.ltb_spec 0 step); [ lia | ].
    destruct (Z.ltb_spec (maxlag + 1) (- maxlag)); [ lia | ]. reflexivity.
Qed.

Lemma best_lag_nothing_to_scan_witness :
  best_lag [1%float] [1%float] 8000 200 0 =
  if (0 =? 0)%Z then Raise ValueError else Ok (0%Z, (-2)%float).
Proof.
  apply (best_lag_nothing_to_scan [1%float] [1%float] 8000 200 0 1600).
  - vm_compute. reflexivity.
  - left. reflexivity.
Defined.

(* ================================================================= *)
(** ** CrossChannelAnalyzer: a signal against itself *)

Lemma sum_rt_self_acc (a : list float) (s : float) :
  fold_left (fun s '(r, t) => (s + r * t)%float) (combine a a) s
  = fold_left (fun s '(r, t) => (s + r * r)%float) (combine a a) s.
Proof.
  revert s. induction a as [ | x a IH]; intros s; [ reflexivity | ].
  cbn [combine fold_left]. apply IH.
Qed.

(** X15 (leakage of a signal into itself).  For a buffer whose energy is
    positive and finite, the cross term of [leakage_db(a, a)] is the
    energy itself and the result is the gain 1.0 exactly, with the level
    [20*log10(1.0)]. *)
Theorem leakage_db_self (a : list float) :
  (0 <? sum_rr a a)%float = true ->
  (sum_rr a a <? infinity)%float = true ->
  sum_rt a a = sum_rr a a /\
  forall log10,
    leakage_db log10 a a = Ok (Some 1%float, Some (20 * log10 1)%float).
Proof.
  intros Hpos Hfin.
  assert (E : sum_rt a a = sum_rr a a) by apply sum_rt_self_acc.
  split; [ exact E | ]. intros log10.
  assert (NE : is_empty a = false).
  { destruct a; [ | reflexivity ]. vm_compute in Hpos. discriminate. }
  unfold leakage_db. rewrite min_len_zero, NE. cbn [orb].
  unfold Py.len. rewrite <- Nat2Z.inj_min, range_upto. cbn [bind].
  rewrite leakage_sums. cbn [bind].
  rewrite E, (positive_not_leb_zero _ Hpos).
  rewrite (truediv_guarded _ _ (positive_not_leb_zero _ Hpos)). cbn [bind].
  rewrite (FloatDiv.div_self _ Hpos Hfin). reflexivity.
Qed.

Lemma leakage_db_self_witness :
  sum_rt [0.5%float; (-0.25)%float] [0.5%float; (-0.25)%float]
  = sum_rr [0.5%float; (-0.25)%float] [0.5%float; (-0.25)%float] /\
  forall log10,
    leakage_db log10 [0.5%float; (-0.25)%float] [0.5%float; (-0.25)%float]
    = Ok (Some 1%float, Some (20 * log10 1)%float).
Proof.
  apply (leakage_db_self [0.5%float; (-0.25)%float]); vm_compute; reflexivity.
Defined.

(* ================================================================= *)
(** ** NoiseFloorEstimator: what is measured and what is selected *)

Lemma slice_window {A : Type} (l : list A) (i w : Z) :
  (0 <= i)%Z -> (0 <= w)%Z -> (i + w <= Py.len l)%Z ->
  Py.slice l (Some i) (Some (i + w)%Z) = firstn (Z.to_nat w) (skipn (Z.to_nat i) l).
Proof.
  intros Hi Hw H. unfold Py.slice, Py.clamp.
  destruct (Z.ltb_spec i 0); [ lia | ]. destruct (Z.ltb_spec (i + w) 0); [ lia | ].
  rewrite !Z.min_l by lia. do 2 f_equal. lia.
Qed.

Lemma mapM_map_agree {A B C : Type} (f : A -> result C) (g : B -> result C)
    (h : nat -> A) (h' : nat -> B) (l : list nat) :
  (forall k, In k l -> f (h k) = g (h' k)) ->
  mapM f (map h l) = mapM g (map h' l).
Proof.
  induction l as [ | k r IH]; intros H; [ reflexivity | ].
  cbn [map mapM]. rewrite (H k) by (left; reflexivity).
  rewrite IH by (intros j Hj; apply H; now right). reflexivity.
Qed.

Lemma mapM_returns {A B : Type} (f : A -> result B) (l : list A) :
  (forall x, In x l -> exists y, f x = Ok y) ->
  exists l', mapM f l = Ok l' /\ Forall2 (fun x y => f x = Ok y) l l'.
Proof.
  induction l as [ | x r IH]; intros H.
  - exists []. split; [ reflexivity | constructor ].
  - destruct (H x (or_introl eq_refl)) as (y & Hy).
    destruct IH as (ys & E & F); [ intros z Hz; apply H; now right | ].
    exists (y :: ys). cbn [mapM]. rewrite Hy, E. split; [ reflexivity | ].
    now constructor.
Qed.

Lemma Forall2_map_with {A B C : Type} (h : A -> B) (P : B -> C -> Prop)
    (Q : A -> Prop) (ks : list A) (l : list C) :
  Forall2 P (map h ks) l -> (forall k, In k ks -> Q k) ->
  Forall2 (fun k y => P (h k) y /\ Q k) ks l.
Proof.
  revert l. induction ks as [ | k ks IH]; intros l F H; cbn [map] in F.
  - inversion F. constructor.
  - inversion F as [ | w r ws rs Hr Hrest]; subst.
    constructor; [ split; [ exact Hr | apply H; left; reflexivity ] | ].
    apply IH; [ exact Hrest | intros j Hj; apply H; now right ].
Qed.

Lemma window_count_bound (len win : Z) (k : nat) :
  (1 <= win)%Z -> (win <= len)%Z ->
  k < Z.to_nat ((len - 1) / win) ->
  (Z.of_nat k * win + win <= len - 1)%Z.
Proof.
  intros Hw Hl Hk.
  assert (0 <= (len - 1) / win)%Z by (apply Z.div_pos; lia).
  assert (Z.of_nat k + 1 <= (len - 1) / win)%Z by lia.
  pose proof (Z.mul_div_le (len - 1) win ltac:(lia)).
  nia.
Qed.

Lemma noise_floor_windows_as_windows (arr : list float) (win : Z) :
  (1 <= win)%Z -> (win <= Py.len arr)%Z ->
  noise_floor_windows arr win
  = mapM rms (map (window arr (Z.to_nat win))
                  (seq 0 (Z.to_nat ((Py.len arr - 1) / win)))).
Proof.
  intros Hw Hlen. unfold noise_floor_windows.
  rewrite range_pos_step by lia. cbn [bind].
  replace (Z.to_nat (if (0 <? Py.len arr - win)%Z
                     then (Py.len arr - win - 0 - 1) / win + 1 else 0)%Z)
    with (Z.to_nat ((Py.len arr - 1) / win)).
  - apply (mapM_map_agree
             (fun i => rms (Py.slice arr (Some i) (Some (i + win)%Z))) rms
             (fun k => (0 + Z.of_nat k * win)%Z) (window arr (Z.to_nat win))).
    intros k Hk. apply in_seq in Hk.
    pose proof (window_count_bound (Py.len arr) win k Hw Hlen ltac:(lia)).
    rewrite slice_window by lia. unfold window. do 3 f_equal. nia.
  - f_equal. destruct (Z.ltb_spec 0 (Py.len arr - win)) as [L | L].
    + replace (Py.len arr - 1)%Z with (Py.len arr - win - 0 - 1 + 1 * win)%Z by lia.
      now rewrite Z.div_add by lia.
    + apply Z.div_small. lia.
Qed.

(** X16 (windows).  On a buffer of at least one window that Python can
    hold, the window loop returns: it measures the consecutive windows
    [arr[k*win : (k+1)*win]] for [k < (len(arr) - 1) // win], in order,
    each of exactly [win] samples, and each value is the RMS of its
    window. *)
Theorem noise_floor_windows_complete (arr : list float) (win : Z) :
  (1 <= win)%Z -> (win <= Py.len arr)%Z -> (Py.len arr < 2 ^ 63)%Z ->
  exists l,
    noise_floor_windows arr win = Ok l /\
    Forall2 (fun k r => rms (window arr (Z.to_nat win) k) = Ok r /\
                        length (window arr (Z.to_nat win) k) = Z.to_nat win)
            (seq 0 (Z.to_nat ((Py.len arr - 1) / win))) l.
Proof.
  intros Hw Hlen Hmax. rewrite noise_floor_windows_as_windows by assumption.
  assert (L : forall k, In k (seq 0 (Z.to_nat ((Py.len arr - 1) / win))) ->
                        length (window arr (Z.to_nat win) k) = Z.to_nat win).
  { intros k Hk. apply in_seq in Hk.
    pose proof (window_count_bound (Py.len arr) win k Hw Hlen ltac:(lia)) as B.
    unfold window. rewrite length_firstn, length_skipn. unfold Py.len in B. nia. }
  destruct (mapM_returns rms (map (window arr (Z.to_nat win))
                                  (seq 0 (Z.to_nat ((Py.len arr - 1) / win)))))
    as (l & E & F).
  { intros w Hw'. apply in_map_iff in Hw'. destruct Hw' as (k & <- & Hk).
    destruct (rms_returns (window arr (Z.to_nat win) k)) as (r & R & _).
    - unfold Py.len. rewrite (L k Hk). lia.
    - now exists r. }
  exists l. split; [ exact E | ].
  exact (Forall2_map_with (window arr (Z.to_nat win)) (fun w r => rms w = Ok r)
           (fun k => length (window arr (Z.to_nat win) k) = Z.to_nat win) _ l F L).
Qed.

Lemma noise_floor_windows_complete_witness :
  exists l,
    noise_floor_windows [1; 0; 0.5; 0.25; 2]%float 2 = Ok l /\
    Forall2 (fun k r => rms (window [1; 0; 0.5; 0.25; 2]%float (Z.to_nat 2) k) = Ok r /\
                        length (window [1; 0; 0.5; 0.25; 2]%float (Z.to_nat 2) k) = Z.to_nat 2)
            (seq 0 (Z.to_nat ((Py.len [1; 0; 0.5; 0.25; 2]%float - 1) / 2))) l.
Proof.
  apply (noise_floor_windows_complete [1; 0; 0.5; 0.25; 2]%float 2).
  - lia.
  - vm_compute. discriminate.
  - vm_compute. reflexivity.
Defined.

(** *** The sorted list *)

Definition fle (x y : float) : Prop := (x <=? y)%float = true.

Lemma insert_perm (x : float) (l : list float) : Permutation (Py.insert x l) (x :: l).
Proof.
  induction l as [ | y r IH]; cbn [Py.insert]; [ reflexivity | ].
  destruct (y <? x)%float; [ | reflexivity ].
  rewrite IH. apply perm_swap.
Qed.

Lemma sort_perm (l : list float) : Permutation (Py.sort l) l.
Proof.
  induction l as [ | x r IH]; cbn [Py.sort]; [ reflexivity | ].
  rewrite insert_perm. now constructor.
Qed.

Lemma insert_sorted (x : float) (l : list float) :
  is_nan x = false -> Forall (fun v => is_nan v = false) l ->
  StronglySorted fle l -> StronglySorted fle (Py.insert x l).
Proof.
  intros Nx Nl S. induction S as [ | y r S IH F]; cbn [Py.insert].
  - repeat constructor.
  - inversion Nl as [ | ? ? Ny Nr]; subst.
    destruct (y <? x)%float eqn:E.
    + constructor; [ now apply IH | ].
      apply (Permutation_Forall (Permutation_sym (insert_perm x r))).
      constructor; [ now apply FloatOrder.ltb_leb | exact F ].
    + assert (L : fle x y) by (now apply FloatOrder.not_ltb_leb).
      constructor; [ now constructor | ].
      constructor; [ exact L | ].
      eapply Forall_impl; [ | exact F ].
      intros v Hv. eapply FloatOrder.leb_trans; eassumption.
Qed.

Lemma sort_sorted (l : list float) :
  Forall (fun v => is_nan v = false) l -> StronglySorted fle (Py.sort l).
Proof.
  induction l as [ | x r IH]; intros N; cbn [Py.sort]; [ constructor | ].
  inversion N; subst. apply insert_sorted; auto.
  apply (Permutation_Forall (Permutation_sym (sort_perm r))). assumption.
Qed.

Lemma sorted_split (l1 l2 : list float) (v : float) :
  StronglySorted fle (l1 ++ v :: l2) ->
  Forall (fun u => fle u v) l1 /\ Forall (fun u => fle v u) l2.
Proof.
  induction l1 as [ | u l1 IH]; cbn [app]; intros S.
  - apply StronglySorted_inv in S. destruct S as [_ F]. split; [ constructor | exact F ].
  - apply StronglySorted_inv in S. destruct S as [S F].
    destruct (IH S) as [F1 F2]. split; [ | exact F2 ].
    constructor; [ | exact F1 ].
    rewrite Forall_app in F. destruct F as [_ F]. now inversion F.
Qed.

Lemma index_split {A : Type} (l : list A) (i : Z) :
  (0 <= i < Py.len l)%Z ->
  exists v, Py.index l i = Ok v /\
            l = firstn (Z.to_nat i) l ++ v :: skipn (S (Z.to_nat i)) l.
Proof.
  intros H. unfold Py.index.
  assert (E : (i <? 0)%Z = false) by (apply Z.ltb_ge; lia). rewrite !E.
  destruct (nth_error l (Z.to_nat i)) as [v | ] eqn:N.
  - exists v. split; [ reflexivity | ].
    assert (Hlt : Z.to_nat i < length l) by (apply nth_error_Some; congruence).
    rewrite <- (firstn_skipn (Z.to_nat i) l) at 1. f_equal.
    rewrite (skipn_nth_cons l _ v Hlt). f_equal. now apply nth_error_nth.
  - apply nth_error_None in N. unfold Py.len in H. lia.
Qed.

Lemma index_out_of_range {A : Type} (l : list A) (i : Z) :
  (Py.len l <= i)%Z -> Py.index l i = Raise IndexError.
Proof.
  intros H. unfold Py.index, Py.len in *.
  assert (E : (i <? 0)%Z = false) by (apply Z.ltb_ge; lia). rewrite !E.
  destruct (nth_error l (Z.to_nat i)) eqn:N; [ | reflexivity ].
  assert (nth_error l (Z.to_nat i) <> None) by congruence.
  apply nth_error_Some in H0. lia.
Qed.

Lemma noise_floor_db_selection (arr : list float) (sr win_ms win : Z)
    (percentile : float) (l : list float) (log10 : float -> float) :
  window_length sr win_ms = Ok win ->
  (win <= Py.len arr)%Z ->
  noise_floor_windows arr win = Ok l ->
  l <> [] ->
  noise_floor_db log10 arr sr win_ms percentile =
  (k <- Py.int_of_float (Py.float_of_int (Py.len l) * percentile)%float ;;
   v <- Py.index (Py.sort l) (Z.max 0 (k - 1)) ;;
   Ok (dbfs log10 v)).
Proof.
  intros W Hlen Hl NE. unfold noise_floor_db. rewrite W. cbn [bind].
  destruct (Z.ltb_spec (Py.len arr) win); [ lia | ]. rewrite Hl. cbn [bind].
  destruct l as [ | x r]; [ contradiction | ].
  unfold Py.len. now rewrite (Permutation_length (sort_perm (x :: r))).
Qed.

(** X17 (what the estimate is).  When the windows hold no NaN and the
    selected index [idx = max(0, int(n*percentile) - 1)] is inside the
    list, the estimate is the level of the window RMS of rank [idx]:
    [idx] of the other values are at most it and the remaining ones at
    least it. *)
Theorem noise_floor_db_order_statistic (arr : list float) (sr win_ms win : Z)
    (percentile : float) (l : list float) (k : Z) :
  window_length sr win_ms = Ok win ->
  (win <= Py.len arr)%Z ->
  noise_floor_windows arr win = Ok l ->
  Forall (fun v => is_nan v = false) l ->
  Py.int_of_float (Py.float_of_int (Py.len l) * percentile)%float = Ok k ->
  (Z.max 0 (k - 1) < Py.len l)%Z ->
  exists below v above,
    Permutation l (below ++ v :: above) /\
    Py.len below = Z.max 0 (k - 1) /\
    Forall (fun u => (u <=? v)%float = true) below /\
    Forall (fun u => (v <=? u)%float = true) above /\
    forall log10,
      noise_floor_db log10 arr sr win_ms percentile = Ok (dbfs log10 v).
Proof.
  intros W Hlen Hl N K Hidx.
  assert (NE : l <> []).
  { intros ->. unfold Py.len in Hidx. cbn in Hidx. lia. }
  assert (Ls : Py.len (Py.sort l) = Py.len l)
    by (unfold Py.len; now rewrite (Permutation_length (sort_perm l))).
  destruct (index_split (Py.sort l) (Z.max 0 (k - 1))) as (v & Iv & Es); [ lia | ].
  pose proof (sort_sorted l N) as Hs. rewrite Es in Hs.
  destruct (sorted_split _ _ _ Hs) as [F1 F2].
  exists (firstn (Z.to_nat (Z.max 0 (k - 1))) (Py.sort l)), v,
         (skipn (S (Z.to_nat (Z.max 0 (k - 1)))) (Py.sort l)).
  split; [ rewrite <- Es; symmetry; apply sort_perm | ].
  split; [ unfold Py.len in *; rewrite length_firstn; lia | ].
  split; [ exact F1 | ]. split; [ exact F2 | ].
  intros log10. rewrite (noise_floor_db_selection arr sr win_ms win percentile l log10)
    by assumption.
  rewrite K. cbn [bind]. rewrite Iv. reflexivity.
Qed.

Lemma noise_floor_db_order_statistic_witness :
  exists below v above,
    Permutation [1; 0; 0.5; 0.25]%float (below ++ v :: above) /\
    Py.len below = Z.max 0 (2 - 1) /\
    Forall (fun u => (u <=? v)%float = true) below /\
    Forall (fun u => (v <=? u)%float = true) above /\
    forall log10,
      noise_floor_db log10 [1; 0; 0.5; 0.25; 2]%float 20 50 0.5%float
      = Ok (dbfs log10 v).
Proof.
  apply (noise_floor_db_order_statistic
           [1; 0; 0.5; 0.25; 2]%float 20 50 1 0.5%float [1; 0; 0.5; 0.25]%float 2).
  - vm_compute. reflexivity.
  - vm_compute. discriminate.
  - vm_compute. reflexivity.
  - repeat constructor.
  - vm_compute. reflexivity.
  - vm_compute. reflexivity.
Defined.

(** X18 (a percentile that is no fraction).  Nothing restricts the
    percentile to (0, 1].  If [int(n*percentile) - 1] reaches the number
    [n] of windows, the sorted list is indexed past its end and the
    estimator raises [IndexError]. *)
Theorem noise_floor_db_percentile_out_of_range (arr : list float) (sr win_ms win : Z)
    (percentile : float) (l : list float) (k : Z) :
  window_length sr win_ms = Ok win ->
  (win <= Py.len arr)%Z ->
  noise_floor_windows arr win = Ok l ->
  l <> [] ->
  Py.int_of_float (Py.float_of_int (Py.len l) * percentile)%float = Ok k ->
  (Py.len l <= k - 1)%Z ->
  Py.index (Py.sort l) (Z.max 0 (k - 1)) = Raise IndexError /\
  forall log10, noise_floor_db log10 arr sr win_ms percentile = Raise IndexError.
Proof.
  intros W Hlen Hl NE K Hk.
  assert (I : Py.index (Py.sort l) (Z.max 0 (k - 1)) = Raise IndexError).
  { apply index_out_of_range. unfold Py.len in *.
    rewrite (Permutation_length (sort_perm l)). lia. }
  split; [ exact I | ]. intros log10.
  rewrite (noise_floor_db_selection arr sr win_ms win percentile l log10) by assumption.
  rewrite K. cbn [bind]. now rewrite I.
Qed.

Lemma noise_floor_db_percentile_out_of_range_witness :
  Py.index (Py.sort [1; 0; 0.5; 0.25]%float) (Z.max 0 (6 - 1)) = Raise IndexError /\
  forall log10,
    noise_floor_db log10 [1; 0; 0.5; 0.25; 2]%float 20 50 1.5%float = Raise IndexError.
Proof.
  apply (noise_floor_db_percentile_out_of_range
           [1; 0; 0.5; 0.25; 2]%float 20 50 1 1.5%float [1; 0; 0.5; 0.25]%float 6).
  - vm_compute. reflexivity.
  - vm_compute. discriminate.
  - vm_compute. reflexivity.
  - discriminate.
  - vm_compute. reflexivity.
  - vm_compute. discriminate.
Defined.

(* ================================================================= *)
(** ** SampleDecoder: the float-or-integer heuristic of 4-byte payloads *)

Lemma is_nan_true (x : float) : is_nan x = true -> Prim2SF x = S754_nan.
Proof.
  intros H. destruct (Prim2SF x) eqn:E; try reflexivity;
    assert (F : is_nan x = false) by (apply FloatOrder.is_nan_false; rewrite E; exact I);
    congruence.
Qed.

Lemma ltb_nan_l (x y : float) : is_nan x = true -> (x <? y)%float = false.
Proof. intros H. rewrite ltb_spec, (is_nan_true x H). reflexivity. Qed.

Lemma ltb_nan_r (x y : float) : is_nan y = true -> (x <? y)%float = false.
Proof.
  intros H. rewrite ltb_spec, (is_nan_true y H). unfold SFltb.
  destruct (Prim2SF x); reflexivity.
Qed.

Lemma max_from_nan (x : float) (l : list float) :
  is_nan x = true -> Py.max_from x l = x.
Proof.
  intros H. unfold Py.max_from. induction l as [ | v l IH]; [ reflexivity | ].
  cbn [fold_left]. now rewrite (ltb_nan_l x v H).
Qed.

Lemma read_wav_stereo_32bit_cases (sr : Z) (frames : list byte) :
  read_wav_stereo 2 sr 4 frames =
  let maxabs := match map abs (float_values frames) with
                | [] => 0%float
                | x :: r => Py.max_from x r
                end in
  let vals := if (10 <? maxabs)%float then int_values frames else float_values frames in
  Ok (sr, channel vals 0, channel vals 1).
Proof.
  unfold read_wav_stereo. cbn [Z.eqb negb Pos.eqb].
  fold (float_values frames). fold (int_values frames). cbv zeta.
  set (vals := if (10 <? _)%float then int_values frames else float_values frames).
  rewrite (deinterleave_left (fun v => v) vals 0%float).
  rewrite (deinterleave_right (fun v => v) vals 0%float). cbn [bind].
  unfold channel. do 3 f_equal. apply map_ext. intros k. now rewrite Nat.add_0_r.
Qed.

(** X19 (a NaN in first place).  The magnitude test runs [max] over the
    values read as floats, and [max] never replaces a NaN it started from.
    So when the first value of a 4-byte payload reads as a NaN the payload
    is kept as floats, however large the other values are: the integer
    reading is never tried. *)
Theorem read_wav_stereo_nan_first_keeps_floats (sr : Z) (frames : list byte)
    (x : float) (r : list float) :
  float_values frames = x :: r ->
  is_nan x = true ->
  read_wav_stereo 2 sr 4 frames
  = Ok (sr, channel (float_values frames) 0, channel (float_values frames) 1).
Proof.
  intros E N. rewrite read_wav_stereo_32bit_cases. cbv zeta. rewrite E. cbn [map].
  rewrite max_from_nan by (now rewrite FloatOrder.abs_is_nan).
  rewrite ltb_nan_r by (now rewrite FloatOrder.abs_is_nan). reflexivity.
Qed.

Lemma read_wav_stereo_nan_first_keeps_floats_witness :
  read_wav_stereo 2 44100 4 [xff; xff; xff; xff; x00; x94; x35; x77]
  = Ok (44100%Z,
        channel (float_values [xff; xff; xff; xff; x00; x94; x35; x77]) 0,
        channel (float_values [xff; xff; xff; xff; x00; x94; x35; x77]) 1).
Proof.
  apply (read_wav_stereo_nan_first_keeps_floats
           44100 [xff; xff; xff; xff; x00; x94; x35; x77]
           nan [0x1.6b28p+111%float]); vm_compute; reflexivity.
Defined.

Lemma existsb_through_map {A B : Type} (f : B -> bool) (g : A -> B) (l : list A) :
  existsb f (map g l) = existsb (fun v => f (g v)) l.
Proof.
  induction l as [ | x r IH]; [ reflexivity | ]. cbn [map existsb]. now rewrite IH.
Qed.

Lemma max_exceeds_iff_some (x : float) (r : list float) (t : float) :
  (forall v, In v (x :: r) -> is_nan v = false) ->
  (t <? Py.max_from x r)%float = existsb (fun v => (t <? v)%float) (x :: r).
Proof.
  intros N. destruct (max_from_spec r x N) as (_ & M2 & M3).
  destruct (existsb (fun v => (t <? v)%float) (x :: r)) eqn:E.
  - apply existsb_exists in E. destruct E as (v & Hv & Tv).
    eapply FloatFacts.ltb_leb_trans; [ exact Tv | now apply M3 ].
  - destruct (t <? Py.max_from x r)%float eqn:T; [ | reflexivity ].
    assert (X : existsb (fun v => (t <? v)%float) (x :: r) = true)
      by (apply existsb_exists; eauto).
    congruence.
Qed.

(** X20 (the magnitude test).  On a 4-byte payload none of whose values
    reads as a NaN, the payload is decoded as integers over 2^31 exactly
    when some value read as a float exceeds 10 in magnitude, and as the
    floats themselves otherwise; either way the channels are the even and
    the odd positions. *)
Theorem read_wav_stereo_32bit_heuristic (sr : Z) (frames : list byte) :
  Forall (fun v => is_nan v = false) (float_values frames) ->
  read_wav_stereo 2 sr 4 frames =
  let vals := if existsb (fun v => (10 <? abs v)%float) (float_values frames)
              then int_values frames else float_values frames in
  Ok (sr, channel vals 0, channel vals 1).
Proof.
  intros N. rewrite read_wav_stereo_32bit_cases. cbv zeta.
  destruct (float_values frames) as [ | x r] eqn:E; [ reflexivity | ].
  cbn [map]. rewrite (max_exceeds_iff_some (abs x) (map abs r) 10).
  - change (abs x :: map abs r) with (map abs (x :: r)).
    now rewrite existsb_through_map.
  - intros v Hv. change (abs x :: map abs r) with (map abs (x :: r)) in Hv.
    apply in_map_iff in Hv. destruct Hv as (u & <- & Hu).
    rewrite FloatOrder.abs_is_nan. rewrite Forall_forall in N. now apply N.
Qed.

Lemma read_wav_stereo_32bit_heuristic_witness :
  read_wav_stereo 2 44100 4 [x00; x94; x35; x77; x00; x00; x00; x3f] =
  let vals := if existsb (fun v => (10 <? abs v)%float)
                         (float_values [x00; x94; x35; x77; x00; x00; x00; x3f])
              then int_values [x00; x94; x35; x77; x00; x00; x00; x3f]
              else float_values [x00; x94; x35; x77; x00; x00; x00; x3f] in
  Ok (44100%Z, channel vals 0, channel vals 1).
Proof.
  apply (read_wav_stereo_32bit_heuristic
           44100 [x00; x94; x35; x77; x00; x00; x00; x3f]).
  vm_compute. repeat constructor.
Defined.

(* ================================================================= *)
(** ** ClippingAnalyzer: the two ends of the scale *)

Lemma int_quotient_self (p : positive) : Py.int_quotient (Zpos p) (Zpos p) = 1%float.
Proof.
  unfold Py.int_quotient. cbn [Py.int_SF]. rewrite FloatDiv.SFdiv_self.
  vm_compute. reflexivity.
Qed.

Lemma int_quotient_zero (p : positive) : Py.int_quotient 0 (Zpos p) = 0%float.
Proof. reflexivity. Qed.

(** X21 (clipping, none and all).  On a non-empty buffer the percentage is
    exactly 0.0 when no sample reaches the threshold and exactly 100.0
    when every sample does; the count is 0, respectively the length. *)
Theorem analyze_clipping_none_or_all (arr : list float) (threshold : float) :
  arr <> [] ->
  clipped threshold arr = [] \/ clipped threshold arr = arr ->
  analyze_clipping arr threshold =
  Ok (Py.len (clipped threshold arr),
      Float (if is_empty (clipped threshold arr) then 0 else 100)%float).
Proof.
  intros NE H. unfold analyze_clipping. rewrite clipping_count, Z.add_0_l.
  destruct arr as [ | x r]; [ contradiction | ].
  unfold Py.int_truediv.
  destruct (Z.eqb_spec (Py.len (x :: r)) 0) as [E | _];
    [ unfold Py.len in E; cbn [length] in E; lia | ].
  cbn [bind].
  assert (P : (0 < Py.len (x :: r))%Z) by (unfold Py.len; cbn [length]; lia).
  destruct H as [-> | ->].
  - change (Py.len (@nil float)) with 0%Z. cbn [is_empty].
    destruct (Py.len (x :: r)) as [ | p | p]; try lia.
    rewrite int_quotient_zero. reflexivity.
  - cbn [is_empty]. destruct (Py.len (x :: r)) as [ | p | p]; try lia.
    rewrite int_quotient_self. reflexivity.
Qed.

Lemma analyze_clipping_none_or_all_witness :
  analyze_clipping [1; -1; 0.96875]%float 0.9375%float =
  Ok (Py.len (clipped 0.9375%float [1; -1; 0.96875]%float),
      Float (if is_empty (clipped 0.9375%float [1; -1; 0.96875]%float) then 0 else 100)%float).
Proof.
  apply (analyze_clipping_none_or_all [1; -1; 0.96875]%float 0.9375%float).
  - discriminate.
  - right. vm_compute. reflexivity.
Defined.

